(** * cristalcode/errors: status errors, stack errors and their rendering

    A shallow embedding of [errors.go] and [stack.go].

    - Go strings are byte sequences: [string] (a list of [ascii]).
    - [int] and [uintptr] are [Z]; the only arithmetic in the package is
      [uintptr(f) - 1], whose wrap-around is written out in [frame_pc].
    - [*Error] and [*StackError] are addresses into a store, so that the
      in-place mutators can be told apart from copies.
    - A nil dereference panics: operations run in a state-and-panic monad
      [M], where [None] is a panic.
    - The Go runtime (symbol table, call stack, clock) is an oracle
      [Runtime]; the standard library functions the package calls
      ([strings.Index], [strings.LastIndex], [path.Base], [strconv.Itoa],
      [fmt], [json.Marshal]) are modelled from their documentation. *)

From Stdlib Require Import ZArith Lia.
From Stdlib Require Import Strings.String Strings.Ascii.
From Stdlib Require Import Numbers.DecimalString Numbers.DecimalZ Numbers.DecimalPos.
From stdpp Require Import base option gmap strings list fin_maps sorting.

Open Scope Z_scope.

(* ===================================================================== *)
(** ** Strings: the [strings], [path] and [strconv] functions in use *)
(* ===================================================================== *)

Module Str.

Definition LF : string := String "010"%char EmptyString.
Definition TAB : string := String "009"%char EmptyString.

Definition len (s : string) : Z := Z.of_nat (String.length s).

(** [s[i:]] for [0 <= i <= len s]. *)
Fixpoint drop (n : nat) (s : string) : string :=
  match n, s with
  | O, _ => s
  | S n', String _ s' => drop n' s'
  | S _, EmptyString => EmptyString
  end.

Definition slice_from (s : string) (i : Z) : string := drop (Z.to_nat i) s.

(** [strings.HasPrefix]. *)
Fixpoint HasPrefix (s p : string) : bool :=
  match p, s with
  | EmptyString, _ => true
  | String a p', String b s' => Ascii.eqb a b && HasPrefix s' p'
  | String _ _, EmptyString => false
  end.

(** [strings.Index]: the index of the first instance of [sep] in [s],
    or -1. *)
Fixpoint Index (s sep : string) : Z :=
  if HasPrefix s sep then 0
  else match s with
       | EmptyString => -1
       | String _ s' =>
           let i := Index s' sep in
           if i <? 0 then -1 else i + 1
       end.

(** [strings.LastIndex]: the index of the last instance of [sep] in
    [s], or -1. *)
Fixpoint LastIndex (s sep : string) : Z :=
  match s with
  | EmptyString => if HasPrefix s sep then 0 else -1
  | String _ s' =>
      let i := LastIndex s' sep in
      if 0 <=? i then i + 1
      else if HasPrefix s sep then 0 else -1
  end.

(** [strings.Contains], as a proposition. *)
Definition Contains (s sub : string) : Prop :=
  exists pre post, s = pre +:+ sub +:+ post.

(** [strconv.Itoa], also what [fmt] prints for an [int] under [%d] and
    [%v]: base 10, a leading minus sign for negative numbers. *)
Definition Itoa (i : Z) : string := NilZero.string_of_int (Z.to_int i).

(** [strconv.Atoi] on what [Itoa] produces. *)
Definition Atoi (s : string) : option Z :=
  Z.of_int <$> NilZero.int_of_string s.

(** The loop of [path.Base] that strips trailing slashes. *)
Fixpoint strip_trailing_slashes (s : string) : string :=
  match s with
  | EmptyString => EmptyString
  | String c s' =>
      match strip_trailing_slashes s' with
      | EmptyString => if Ascii.eqb c "/" then EmptyString else String c EmptyString
      | r => String c r
      end
  end.

(** [path.Base]: the last element of a slash-separated path. *)
Definition Base (path : string) : string :=
  if String.eqb path "" then "."
  else
    let path := strip_trailing_slashes path in
    let i := LastIndex path "/" in
    let path := if 0 <=? i then slice_from path (i + 1) else path in
    if String.eqb path "" then "/" else path.

(** [s[:i]] for [0 <= i <= len s]. *)
Fixpoint take (n : nat) (s : string) : string :=
  match n, s with
  | S n', String c s' => String c (take n' s')
  | _, _ => EmptyString
  end.

Definition slice_to (s : string) (i : Z) : string := take (Z.to_nat i) s.

(** [strings.Count(s, sep)] for a one-byte separator [sep]. *)
Fixpoint Count (s : string) (sep : ascii) : Z :=
  match s with
  | EmptyString => 0
  | String c s' => (if Ascii.eqb sep c then 1 else 0) + Count s' sep
  end.

End Str.

(* ===================================================================== *)
(** ** The Go runtime, as far as the package consults it *)
(* ===================================================================== *)

Definition uintptr := Z.

(** The architectures Go compiles for have 32-bit or 64-bit words, and
    [uintptr] arithmetic wraps around at the word size. *)
Inductive word_size := W32 | W64.

Definition uintptr_bits (w : word_size) : Z :=
  match w with
  | W32 => 32
  | W64 => 64
  end.

Definition wrap_uintptr (w : word_size) (z : Z) : uintptr := z mod 2 ^ uintptr_bits w.

(** A [runtime.Func]: the function's name and its pc-to-line table. *)
Record Func := mkFunc {
  Func_Name : string;
  Func_FileLine : uintptr -> string * Z
}.

(** What the runtime answers during one call of a function of the
    package. Every call is given its own [Runtime]: the call site, the
    call stack and the clock differ from call to call.
    - [rt_word_size]: the word size of the architecture;
    - [rt_FuncForPC pc]: [runtime.FuncForPC], [None] for a nil result
      (the symbol table of the program; the same in every call of one
      run);
    - [rt_Caller skip]: [runtime.Caller] as called from [logError],
      [None] when it reports [ok = false], else the file and the line;
    - [rt_stack]: the return program counters of the calling goroutine
      as seen by [runtime.Callers] inside [callers], innermost first,
      entry 0 being the frame of [runtime.Callers] itself;
    - [rt_Now]: [time.Now().Local()] as [fmt] prints it. *)
Record Runtime := mkRuntime {
  rt_word_size : word_size;
  rt_FuncForPC : uintptr -> option Func;
  rt_Caller : nat -> option (string * Z);
  rt_stack : list uintptr;
  rt_Now : string
}.

(** The method [Name] of [runtime.Func], which returns the empty string
    on a nil receiver. *)
Definition Name (fn : option Func) : string :=
  match fn with
  | None => ""
  | Some f => Func_Name f
  end.

(** [runtime.Callers(skip, pc)]: fills [pc] with the return program
    counters left after skipping [skip] frames, as many as fit, and
    returns the number of entries written together with the slice. *)
Definition runtime_Callers (rt : Runtime) (skip : nat) (pc : list uintptr)
  : nat * list uintptr :=
  let avail := List.skipn skip (rt_stack rt) in
  let n := Nat.min (List.length pc) (List.length avail) in
  (n, List.firstn n avail ++ List.skipn n pc).

(* ===================================================================== *)
(** ** stack.go *)
(* ===================================================================== *)

(** [type frame uintptr] *)
Definition frame := uintptr.

(** [type stack []uintptr] *)
Definition stack := list uintptr.

(** [func funcname(name string) string] *)
Definition funcname (name : string) : string :=
  let i := Str.LastIndex name "/" in
  let name := Str.slice_from name (i + 1) in
  let i := Str.Index name "." in
  Str.slice_from name (i + 1).

Section Stack.

Variable rt : Runtime.

(** [func (f frame) pc() uintptr] *)
Definition frame_pc (f : frame) : uintptr := wrap_uintptr (rt_word_size rt) (f - 1).

(** [func (f frame) file() string] *)
Definition frame_file (f : frame) : string :=
  match rt_FuncForPC rt (frame_pc f) with
  | None => "unknown"
  | Some fn => fst (Func_FileLine fn (frame_pc f))
  end.

(** [func (f frame) line() int] *)
Definition frame_line (f : frame) : Z :=
  match rt_FuncForPC rt (frame_pc f) with
  | None => 0
  | Some fn => snd (Func_FileLine fn (frame_pc f))
  end.

(** [frame.Format], verb [s]: with the [+] flag the qualified function
    name, a newline, a tab and the file; without it the base name of
    the file. *)
Definition frame_Format_s (f : frame) (plus : bool) : string :=
  if plus then
    let pc := frame_pc f in
    match rt_FuncForPC rt pc with
    | None => "unknown"
    | Some fn =>
        let file := fst (Func_FileLine fn pc) in
        Func_Name fn +:+ Str.LF +:+ Str.TAB +:+ file
    end
  else Str.Base (frame_file f).

(** [frame.Format], verb [d]. *)
Definition frame_Format_d (f : frame) : string := Str.Itoa (frame_line f).

(** [func (f frame) Format(s fmt.State, verb rune)]: what the call
    writes to [s], given whether [s.Flag('+')] holds. A verb outside
    the switch writes nothing. *)
Definition frame_Format (f : frame) (plus : bool) (verb : ascii) : string :=
  if Ascii.eqb verb "s" then frame_Format_s f plus
  else if Ascii.eqb verb "d" then frame_Format_d f
  else if Ascii.eqb verb "n" then funcname (Name (rt_FuncForPC rt (frame_pc f)))
  else if Ascii.eqb verb "v" then
    frame_Format_s f plus +:+ ":" +:+ frame_Format_d f
  else "".

(** [func (s *stack) Format(st fmt.State, verb rune)] on a non-nil
    receiver: only [%+v] writes anything, one block per program
    counter. *)
Definition stack_Format (s : stack) (plus : bool) (verb : ascii) : string :=
  if Ascii.eqb verb "v" && plus then
    List.fold_left (fun out pc => out +:+ Str.LF +:+ frame_Format pc true "v") s ""
  else "".

(** [fmt]'s [%+v] of a [*stack] operand: [fmt] calls the operand's
    [Format]; on a nil pointer that call panics and [fmt] recovers and
    prints [<nil>]. *)
Definition fmt_plus_v_stack (s : option stack) : string :=
  match s with
  | None => "<nil>"
  | Some st => stack_Format st true "v"
  end.

(** [func (s *stack) StackTrace() stackTrace] *)
Definition stack_StackTrace (s : stack) : list frame :=
  List.map (fun pc => pc : frame) s.

(** [func callers() *stack], the slice the returned pointer refers to. *)
Definition depth : nat := 32.
Definition callers : stack :=
  let pcs := List.repeat (0 : uintptr) depth in
  let '(n, pcs) := runtime_Callers rt 3 pcs in
  List.firstn n pcs.

End Stack.

(* ===================================================================== *)
(** ** errors.go: values, store and the monad of operations *)
(* ===================================================================== *)

Definition loc := positive.

(** A pointer: nil or an address. *)
Definition ptr := option loc.

(** An [error] interface value, which the package only ever compares
    with nil and asks for the text of its [Error] method:
    - the nil interface;
    - a value of a type from outside the package whose [Error] method
      returns [msg];
    - a [*Error] of this package stored in the interface, the pointer
      itself nil or not (an interface holding a nil pointer is not the
      nil interface);
    - a [*StackError] of this package, likewise. *)
Inductive error :=
| nil_error
| an_error (msg : string)
| Error_as_error (e : ptr)
| StackError_as_error (s : ptr).

(** [err == nil] *)
Definition is_nil (err : error) : bool :=
  match err with
  | nil_error => true
  | _ => false
  end.

(** [type Error struct { code int; message string }] *)
Record Error := mkError {
  code : Z;
  message : string
}.

(** [type StackError struct { err Error; *stack }]: the embedded pointer
    is nil or refers to a slice that nothing mutates. *)
Record StackError := mkStackError {
  err : Error;
  stack_ptr : option stack
}.

(** [io.Writer] destinations: [ioutil.Discard], or a destination that
    keeps what is written to it. *)
Inductive Writer :=
| Discard
| Buffer (written : string).

(** [w.Write(p)]; the package discards its results. *)
Definition Writer_Write (w : Writer) (p : string) : Writer :=
  match w with
  | Discard => Discard
  | Buffer written => Buffer (written +:+ p)
  end.

(** The package variable [errorWriter] and the allocated [Error] and
    [StackError] objects. *)
Record state := mkState {
  errorWriter : Writer;
  heap_Error : gmap loc Error;
  heap_StackError : gmap loc StackError
}.

(** [var errorWriter = ioutil.Discard] and nothing allocated. *)
Definition init_state : state :=
  {| errorWriter := Discard; heap_Error := ∅; heap_StackError := ∅ |}.

(** Operations: a state transformer that may panic ([None]). *)
Definition M (A : Type) : Type := state -> option (A * state).

Definition ret {A} (a : A) : M A := fun σ => Some (a, σ).
Definition panic {A} : M A := fun _ => None.
Definition bind {A B} (m : M A) (k : A -> M B) : M B :=
  fun σ => match m σ with
           | None => None
           | Some (a, σ') => k a σ'
           end.

Declare Scope go_scope.
Delimit Scope go_scope with go.
Notation "x <- m ;; k" := (bind m (fun x => k))
  (at level 100, m at next level, right associativity) : go_scope.
Notation "m ;;; k" := (bind m (fun _ => k))
  (at level 100, right associativity) : go_scope.
Open Scope go_scope.

(** [*e] *)
Definition load_Error (e : ptr) : M Error :=
  fun σ => match e with
           | None => None
           | Some l => match heap_Error σ !! l with
                       | None => None
                       | Some v => Some (v, σ)
                       end
           end.

(** [*e = v] *)
Definition store_Error (e : ptr) (v : Error) : M unit :=
  fun σ => match e with
           | None => None
           | Some l => match heap_Error σ !! l with
                       | None => None
                       | Some _ =>
                           Some (tt, {| errorWriter := errorWriter σ;
                                        heap_Error := <[l := v]> (heap_Error σ);
                                        heap_StackError := heap_StackError σ |})
                       end
           end.

(** [&Error{...}] *)
Definition new_Error (v : Error) : M ptr :=
  fun σ => let l := fresh (dom (heap_Error σ)) in
           Some (Some l, {| errorWriter := errorWriter σ;
                            heap_Error := <[l := v]> (heap_Error σ);
                            heap_StackError := heap_StackError σ |}).

(** [*s] *)
Definition load_StackError (s : ptr) : M StackError :=
  fun σ => match s with
           | None => None
           | Some l => match heap_StackError σ !! l with
                       | None => None
                       | Some v => Some (v, σ)
                       end
           end.

(** [*s = v] *)
Definition store_StackError (s : ptr) (v : StackError) : M unit :=
  fun σ => match s with
           | None => None
           | Some l => match heap_StackError σ !! l with
                       | None => None
                       | Some _ =>
                           Some (tt, {| errorWriter := errorWriter σ;
                                        heap_Error := heap_Error σ;
                                        heap_StackError := <[l := v]> (heap_StackError σ) |})
                       end
           end.

(** [&StackError{...}] *)
Definition new_StackError (v : StackError) : M ptr :=
  fun σ => let l := fresh (dom (heap_StackError σ)) in
           Some (Some l, {| errorWriter := errorWriter σ;
                            heap_Error := heap_Error σ;
                            heap_StackError := <[l := v]> (heap_StackError σ) |}).

(** [fmt.Fprintln(errorWriter, a, b, c, d)] on operands already printed:
    a space between operands and a newline at the end. *)
Definition Fprintln_errorWriter (operands : list string) : M unit :=
  fun σ =>
    let line := String.concat " " operands +:+ Str.LF in
    Some (tt, {| errorWriter := Writer_Write (errorWriter σ) line;
                 heap_Error := heap_Error σ;
                 heap_StackError := heap_StackError σ |}).

(** [func SetLogger(w io.Writer)] *)
Definition SetLogger (w : Writer) : M unit :=
  fun σ => Some (tt, {| errorWriter := w;
                        heap_Error := heap_Error σ;
                        heap_StackError := heap_StackError σ |}).

(** The value method [Error] on an [Error] struct. *)
Definition Error_text (e : Error) : string :=
  "Status " +:+ Str.Itoa (code e) +:+ " : " +:+ message e.

(** [func (e *Error) Error() string] *)
Definition Error_Error (e : ptr) : M string :=
  v <- load_Error e ;;
  ret (Error_text v).

(** [func (e *Error) Code() int] *)
Definition Error_Code (e : ptr) : M Z :=
  v <- load_Error e ;;
  ret (code v).

(** [func (e *Error) WithStatus(status int) *Error] *)
Definition Error_WithStatus (e : ptr) (status : Z) : M ptr :=
  v <- load_Error e ;;
  store_Error e {| code := status; message := message v |} ;;;
  ret e.

(* ===================================================================== *)
(** ** encoding/json, as far as [MarshalJSON] uses it *)
(* ===================================================================== *)

(** Operands of [json.Marshal]: the one this package passes, and some
    that the encoder rejects. *)
Inductive json_operand :=
| J_string (s : string)
| J_int (i : Z)
| J_map_string_string (m : gmap string string)
| J_chan
| J_func.

Section Json.

(** The encoder of a Go string as a JSON string literal (quoting and
    escaping), whose details differ between Go releases. *)
Variable quote : string -> string.

(** One [key:value] member of an object. *)
Definition json_member (kv : string * string) : string :=
  quote kv.1 +:+ ":" +:+ quote kv.2.

(** A [map[string]string] encodes as an object, keys sorted. *)
Definition json_object (m : gmap string string) : string :=
  let members := merge_sort (fun a b : string * string => Is_true (String.leb a.1 b.1))
                            (map_to_list m) in
  "{" +:+ String.concat "," (List.map json_member members) +:+ "}".

(** [json.Marshal]: the encoding and a nil error, or no bytes and an
    [UnsupportedTypeError]. *)
Definition json_Marshal (v : json_operand) : string * error :=
  match v with
  | J_string s => (quote s, nil_error)
  | J_int i => (Str.Itoa i, nil_error)
  | J_map_string_string m => (json_object m, nil_error)
  | J_chan => ("", an_error "json: unsupported type: chan int")
  | J_func => ("", an_error "json: unsupported type: func()")
  end.

(** The map literal in [MarshalJSON]. *)
Definition errMap (e : Error) : gmap string string :=
  <["code" := Str.Itoa (code e)]> (<["error" := message e]> ∅).

(** [func (e *Error) MarshalJSON() ([]byte, error)] *)
Definition Error_MarshalJSON (e : ptr) : M (string * error) :=
  v <- load_Error e ;;
  ret (json_Marshal (J_map_string_string (errMap v))).

End Json.

(* ===================================================================== *)
(** ** errors.go: the logger, the constructors and [StackError] *)
(* ===================================================================== *)

Section Errors.

Variable rt : Runtime.

(** The file and line [logError] prints. *)
Definition caller_location : string * Z :=
  match rt_Caller rt 2 with
  | Some (file, line) =>
      let index := Str.LastIndex file "/" in
      if 0 <=? index then (Str.slice_from file (index + 1), line)
      else
        let index := Str.LastIndex file "\" in
        if 0 <=? index then (Str.slice_from file (index + 1), line)
        else (file, line)
  | None => ("???", 1)
  end.

(** [func logError(e *Error)] *)
Definition logError (e : ptr) : M unit :=
  let '(file, line) := caller_location in
  text <- Error_Error e ;;
  Fprintln_errorWriter [file; Str.Itoa line; text; rt_Now rt].

(** [func New(message string) *Error] *)
Definition New (message : string) : M ptr :=
  e <- new_Error {| code := 0; message := message |} ;;
  logError e ;;;
  ret e.

(** [func (s *StackError) Error() string] *)
Definition StackError_Error (s : ptr) : M string :=
  v <- load_StackError s ;;
  ret (Error_text (err v) +:+ fmt_plus_v_stack rt (stack_ptr v)).

(** [err.Error()]: the call goes to the method of the value the
    interface holds; on the nil interface it panics. *)
Definition error_Error (err : error) : M string :=
  match err with
  | nil_error => panic
  | an_error msg => ret msg
  | Error_as_error e => Error_Error e
  | StackError_as_error s => StackError_Error s
  end.

(** [func WithStatus(code int, err error) *Error] *)
Definition WithStatus (code : Z) (err : error) : M ptr :=
  if is_nil err then ret None
  else
    text <- error_Error err ;;
    e <- new_Error {| code := code; message := text |} ;;
    logError e ;;;
    ret e.

(** [func WithMessage(message string, code int, err error) *Error] *)
Definition WithMessage (message : string) (code : Z) (err : error) : M ptr :=
  if is_nil err then ret None
  else
    text <- error_Error err ;;
    let msg := message +:+ ": " +:+ text in
    e <- new_Error {| code := code; message := msg |} ;;
    logError e ;;;
    ret e.

(** [func WithStack(message string, status int, err error) *StackError] *)
Definition WithStack (message : string) (status : Z) (err : error) : M ptr :=
  if is_nil err then ret None
  else
    text <- error_Error err ;;
    let msg := message +:+ ": " +:+ text in
    let ex := {| code := status; message := msg |} in
    new_StackError {| err := ex; stack_ptr := Some (callers rt) |}.

(** [func (s *StackError) Code() int] *)
Definition StackError_Code (s : ptr) : M Z :=
  v <- load_StackError s ;;
  ret (code (err v)).

(** [func (s *StackError) WithStatus(status int)] *)
Definition StackError_WithStatus (s : ptr) (status : Z) : M unit :=
  v <- load_StackError s ;;
  store_StackError s {| err := {| code := status; message := message (err v) |};
                        stack_ptr := stack_ptr v |}.

End Errors.

(** A runtime for the examples: two resolvable program counters, a
    caller that resolves, and a call stack of forty frames. *)
Definition demo_FuncForPC (pc : uintptr) : option Func :=
  if pc =? 100 then
    Some (mkFunc "github.com/cristalcode/errors.frame.Format"
                 (fun _ => ("/go/src/github.com/cristalcode/errors/stack.go", 51)))
  else if pc =? 200 then
    Some (mkFunc "main.main" (fun _ => ("/app/main.go", 12)))
  else None.

Definition demo_rt : Runtime :=
  {| rt_word_size := W64;
     rt_FuncForPC := demo_FuncForPC;
     rt_Caller := fun _ => Some ("/app/main.go", 12);
     rt_stack := List.map Z.of_nat (List.seq 1 40);
     rt_Now := "2020-01-02 03:04:05 +0000 UTC" |}.

(** The same runtime with nothing resolvable. *)
Definition stripped_rt : Runtime :=
  {| rt_word_size := W32;
     rt_FuncForPC := fun _ => None;
     rt_Caller := fun _ => None;
     rt_stack := [101; 201];
     rt_Now := "2020-01-02 03:04:05 +0000 UTC" |}.

(** A string-literal encoder for the examples: quotes, no escaping. *)
Definition demo_quote (s : string) : string :=
  String "034"%char EmptyString +:+ s +:+ String "034"%char EmptyString.

(** A store with one StatusError and one StackError, as [New] and
    [WithStack] leave it. *)
Definition demo_state : state :=
  {| errorWriter := Discard;
     heap_Error := {[ 1%positive := {| code := 0; message := "disk full" |} ]};
     heap_StackError :=
       {[ 1%positive := {| err := {| code := 500; message := "fetch user: db down" |};
                           stack_ptr := Some [101; 201; 301] |} ]} |}.

(** The line [logError] prints for [v]. *)
Definition log_line (rt : Runtime) (v : Error) : string :=
  String.concat " " [(caller_location rt).1; Str.Itoa (caller_location rt).2;
                     Error_text v; rt_Now rt] +:+ Str.LF.

(** The state a plain constructor leaves: one object allocated at a
    fresh address, one line written. *)
Definition constructed (rt : Runtime) (v : Error) (σ : state) : state :=
  {| errorWriter := Writer_Write (errorWriter σ) (log_line rt v);
     heap_Error := <[fresh (dom (heap_Error σ)) := v]> (heap_Error σ);
     heap_StackError := heap_StackError σ |}.

(** The function name as the specification words it: the path prefix
    removed, then the qualifiers removed so that only the last
    dot-separated component remains. *)
Definition funcname_as_specified (name : string) : string :=
  let name := Str.slice_from name (Str.LastIndex name "/" + 1) in
  Str.slice_from name (Str.LastIndex name "." + 1).

(** The loop of [trimGOPATH] with [n] iterations to go: the value of
    [i] when the loop ends, -len(sep) after the [break]. *)
Fixpoint trimGOPATH_loop (n : nat) (file : string) (i : Z) : Z :=
  match n with
  | O => i
  | S n' =>
      let i := Str.LastIndex (Str.slice_to file i) "/" in
      if i =? -1 then - Str.len "/"
      else trimGOPATH_loop n' file i
  end.

(** [func trimGOPATH(name, file string) string] *)
Definition trimGOPATH (name file : string) : string :=
  let goal := Str.Count name "/" + 2 in
  let i := trimGOPATH_loop (Z.to_nat goal) file (Str.len file) in
  Str.slice_from file (i + Str.len "/").

(** [fmt]'s [%v] and [%s] of a slice whose elements print as [elems]. *)
Definition fmt_slice (elems : list string) : string :=
  "[" +:+ String.concat " " elems +:+ "]".

(** [fmt]'s [%#v] of a slice of type [ty], nil or with elements printing
    as [elems]. *)
Definition fmt_slice_sharp (ty : string) (elems : option (list string)) : string :=
  match elems with
  | None => ty +:+ "(nil)"
  | Some l => ty +:+ "{" +:+ String.concat ", " l +:+ "}"
  end.

(** [func (st stackTrace) Format(s fmt.State, verb rune)] on a nil
    ([None]) or non-nil slice, given [s.Flag('+')] and [s.Flag('#')]. The
    inner [Fprintf] calls start from their own format string, so the
    frames of the compact forms are printed without flags. *)
Definition stackTrace_Format (rt : Runtime) (st : option (list frame))
    (plus sharp : bool) (verb : ascii) : string :=
  let frames := match st with None => [] | Some l => l end in
  if Ascii.eqb verb "v" then
    if plus then
      List.fold_left (fun out f => out +:+ Str.LF +:+ frame_Format rt f true "v") frames ""
    else if sharp then
      fmt_slice_sharp "[]errors.frame"
        (option_map (List.map (fun f => frame_Format rt f false "v")) st)
    else fmt_slice (List.map (fun f => frame_Format rt f false "v") frames)
  else if Ascii.eqb verb "s" then
    fmt_slice (List.map (fun f => frame_Format rt f false "s") frames)
  else "".

(** Runtimes whose caller resolves to a slash-separated and to a
    backslash-separated file. *)
Definition slash_rt : Runtime :=
  {| rt_word_size := W64;
     rt_FuncForPC := demo_FuncForPC;
     rt_Caller := fun _ => Some ("/go/src/app" +:+ "/" +:+ "main.go", 12);
     rt_stack := [1; 2; 3; 101; 201];
     rt_Now := "2020-01-02 03:04:05 +0000 UTC" |}.

Definition backslash_rt : Runtime :=
  {| rt_word_size := W64;
     rt_FuncForPC := demo_FuncForPC;
     rt_Caller := fun _ => Some ("C:\src\app" +:+ "\" +:+ "main.go", 7);
     rt_stack := [1; 2];
     rt_Now := "2020-01-02 03:04:06 +0000 UTC" |}.

(* ===================================================================== *)
(** ** Running the operations *)
(* ===================================================================== *)

Lemma bind_ret {A B} (a : A) (k : A -> M B) (σ : state) :
  bind (ret a) k σ = k a σ.
Proof. reflexivity. Qed.

Lemma fresh_loc_free {A} (h : gmap loc A) : h !! fresh (dom h) = None.
Proof. apply not_elem_of_dom, is_fresh. Qed.

Lemma load_Error_run l σ v :
  heap_Error σ !! l = Some v -> load_Error (Some l) σ = Some (v, σ).
Proof. intros H. unfold load_Error. now rewrite H. Qed.

Lemma load_StackError_run l σ v :
  heap_StackError σ !! l = Some v -> load_StackError (Some l) σ = Some (v, σ).
Proof. intros H. unfold load_StackError. now rewrite H. Qed.

Lemma Error_Error_run l σ v :
  heap_Error σ !! l = Some v -> Error_Error (Some l) σ = Some (Error_text v, σ).
Proof. intros H. unfold Error_Error, bind. now rewrite (load_Error_run _ _ _ H). Qed.

Lemma Error_Code_run l σ v :
  heap_Error σ !! l = Some v -> Error_Code (Some l) σ = Some (code v, σ).
Proof. intros H. unfold Error_Code, bind. now rewrite (load_Error_run _ _ _ H). Qed.

Lemma StackError_Error_run rt l σ v :
  heap_StackError σ !! l = Some v ->
  StackError_Error rt (Some l) σ =
    Some (Error_text (err v) +:+ fmt_plus_v_stack rt (stack_ptr v), σ).
Proof. intros H. unfold StackError_Error, bind. now rewrite (load_StackError_run _ _ _ H). Qed.

Lemma StackError_Code_run l σ v :
  heap_StackError σ !! l = Some v ->
  StackError_Code (Some l) σ = Some (code (err v), σ).
Proof. intros H. unfold StackError_Code, bind. now rewrite (load_StackError_run _ _ _ H). Qed.

Lemma logError_run rt l σ v :
  heap_Error σ !! l = Some v ->
  logError rt (Some l) σ =
    Some (tt, {| errorWriter := Writer_Write (errorWriter σ) (log_line rt v);
                 heap_Error := heap_Error σ;
                 heap_StackError := heap_StackError σ |}).
Proof.
  intros H. unfold logError, log_line.
  destruct (caller_location rt) as [file line]. unfold bind.
  rewrite (Error_Error_run _ _ _ H). reflexivity.
Qed.

(** Allocate, log, return: the common tail of [New], [WithStatus] and
    [WithMessage]. *)
Lemma construct_run rt v σ :
  (e <- new_Error v ;; logError rt e ;;; ret e) σ =
    Some (Some (fresh (dom (heap_Error σ))), constructed rt v σ).
Proof.
  unfold bind at 1. unfold new_Error. unfold bind.
  erewrite logError_run by (simpl; apply lookup_insert_eq).
  reflexivity.
Qed.

Lemma constructed_lookup rt v σ :
  heap_Error (constructed rt v σ) !! fresh (dom (heap_Error σ)) = Some v.
Proof. simpl. apply lookup_insert_eq. Qed.

(** Step through a plain constructor up to the state it leaves. *)
Ltac run_plain_constructor :=
  unfold New, WithStatus, WithMessage;
  cbn [is_nil error_Error]; rewrite ?bind_ret;
  rewrite construct_run.

Create HintDb store discriminated.
#[local] Hint Resolve fresh_loc_free constructed_lookup : store.

(* ===================================================================== *)
(** ** Facts about the string functions *)
(* ===================================================================== *)

Lemma append_nil (b : string) : "" +:+ b = b.
Proof. reflexivity. Qed.

Lemma append_cons (x : ascii) (a b : string) :
  String x a +:+ b = String x (a +:+ b).
Proof. reflexivity. Qed.

Lemma append_assoc (a b c : string) : (a +:+ b) +:+ c = a +:+ (b +:+ c).
Proof.
  induction a as [|x a IH]; [reflexivity|].
  rewrite !append_cons. now f_equal.
Qed.

Lemma append_empty_r (a : string) : a +:+ "" = a.
Proof.
  induction a as [|x a IH]; [reflexivity|].
  rewrite append_cons. now f_equal.
Qed.

Lemma HasPrefix_append (a b : string) : Str.HasPrefix (a +:+ b) a = true.
Proof.
  induction a as [|x a IH].
  - now destruct b.
  - rewrite append_cons. simpl. now rewrite Ascii.eqb_refl, IH.
Qed.

Lemma Contains_append (a b c : string) : Str.Contains (a +:+ b +:+ c) b.
Proof. now exists a, c. Qed.

Lemma HasPrefix_empty (s : string) : Str.HasPrefix s "" = true.
Proof. now destruct s. Qed.

Lemma HasPrefix_char (c : ascii) (s : string) :
  Str.HasPrefix s (String c EmptyString) =
    match s with
    | EmptyString => false
    | String b _ => Ascii.eqb c b
    end.
Proof.
  destruct s as [|b s]; simpl; [reflexivity|].
  rewrite HasPrefix_empty. apply andb_true_r.
Qed.

Lemma Index_nil (sep : string) :
  Str.Index "" sep = if Str.HasPrefix "" sep then 0 else -1.
Proof. reflexivity. Qed.

Lemma Index_cons (b : ascii) (s sep : string) :
  Str.Index (String b s) sep =
    if Str.HasPrefix (String b s) sep then 0
    else if Str.Index s sep <? 0 then -1 else Str.Index s sep + 1.
Proof. reflexivity. Qed.

Lemma LastIndex_nil (sep : string) :
  Str.LastIndex "" sep = if Str.HasPrefix "" sep then 0 else -1.
Proof. reflexivity. Qed.

Lemma LastIndex_cons (b : ascii) (s sep : string) :
  Str.LastIndex (String b s) sep =
    if 0 <=? Str.LastIndex s sep then Str.LastIndex s sep + 1
    else if Str.HasPrefix (String b s) sep then 0 else -1.
Proof. reflexivity. Qed.

Lemma len_cons (b : ascii) (s : string) : Str.len (String b s) = Str.len s + 1.
Proof. unfold Str.len. cbn [String.length]. lia. Qed.

Lemma len_nonneg (s : string) : 0 <= Str.len s.
Proof. unfold Str.len. lia. Qed.

Lemma Index_lower_bound (s sep : string) : -1 <= Str.Index s sep.
Proof.
  induction s as [|b s IH].
  - rewrite Index_nil. destruct (Str.HasPrefix "" sep); lia.
  - rewrite Index_cons. destruct (Str.HasPrefix (String b s) sep); [lia|].
    destruct (Z.ltb_spec (Str.Index s sep) 0); lia.
Qed.

Lemma LastIndex_lower_bound (s sep : string) : -1 <= Str.LastIndex s sep.
Proof.
  induction s as [|b s IH].
  - rewrite LastIndex_nil. destruct (Str.HasPrefix "" sep); lia.
  - rewrite LastIndex_cons.
    destruct (Z.leb_spec 0 (Str.LastIndex s sep)); [lia|].
    destruct (Str.HasPrefix (String b s) sep); lia.
Qed.

(** With a one-byte separator, [Index] and [LastIndex] agree on absence. *)
Lemma LastIndex_absent_iff (c : ascii) (s : string) :
  Str.LastIndex s (String c EmptyString) = -1 <-> Str.Index s (String c EmptyString) = -1.
Proof.
  induction s as [|b s IH].
  - rewrite LastIndex_nil, Index_nil. tauto.
  - rewrite LastIndex_cons, Index_cons, HasPrefix_char.
    pose proof (Index_lower_bound s (String c EmptyString)).
    pose proof (LastIndex_lower_bound s (String c EmptyString)).
    destruct (Z.leb_spec 0 (Str.LastIndex s (String c EmptyString)));
      destruct (Z.ltb_spec (Str.Index s (String c EmptyString)) 0);
      destruct (Ascii.eqb c b); split; intros; try lia; try discriminate.
Qed.

(** The first separator after a prefix that has none. *)
Lemma Index_append_char (c : ascii) (a b : string) :
  Str.Index a (String c EmptyString) = -1 ->
  Str.Index (a +:+ String c b) (String c EmptyString) = Str.len a.
Proof.
  induction a as [|x a IH]; intros Ha.
  - rewrite append_nil, Index_cons, HasPrefix_char, Ascii.eqb_refl. reflexivity.
  - rewrite Index_cons, HasPrefix_char in Ha.
    rewrite append_cons, Index_cons, HasPrefix_char, len_cons.
    pose proof (Index_lower_bound a (String c EmptyString)).
    pose proof (len_nonneg a).
    destruct (Ascii.eqb c x); [discriminate|].
    destruct (Z.ltb_spec (Str.Index a (String c EmptyString)) 0); [|lia].
    rewrite IH by lia.
    destruct (Z.ltb_spec (Str.len a) 0); lia.
Qed.

(** The last separator before a suffix that has none. *)
Lemma LastIndex_append_char (c : ascii) (a b : string) :
  Str.Index b (String c EmptyString) = -1 ->
  Str.LastIndex (a +:+ String c b) (String c EmptyString) = Str.len a.
Proof.
  intros Hb. apply LastIndex_absent_iff in Hb.
  induction a as [|x a IH].
  - rewrite append_nil, LastIndex_cons, Hb, HasPrefix_char, Ascii.eqb_refl.
    reflexivity.
  - rewrite append_cons, LastIndex_cons, IH, len_cons.
    pose proof (len_nonneg a).
    destruct (Z.leb_spec 0 (Str.len a)); lia.
Qed.

(** No separator in either part, none in the whole. *)
Lemma Index_absent_append (c : ascii) (a b : string) :
  Str.Index a (String c EmptyString) = -1 ->
  Str.Index b (String c EmptyString) = -1 ->
  Str.Index (a +:+ b) (String c EmptyString) = -1.
Proof.
  intros Ha Hb. induction a as [|x a IH]; [exact Hb|].
  rewrite Index_cons, HasPrefix_char in Ha.
  rewrite append_cons, Index_cons, HasPrefix_char.
  pose proof (Index_lower_bound a (String c EmptyString)).
  destruct (Ascii.eqb c x); [discriminate|].
  destruct (Z.ltb_spec (Str.Index a (String c EmptyString)) 0); [|lia].
  rewrite IH by lia. reflexivity.
Qed.

Lemma Index_absent_cons (c x : ascii) (b : string) :
  Ascii.eqb c x = false ->
  Str.Index b (String c EmptyString) = -1 ->
  Str.Index (String x b) (String c EmptyString) = -1.
Proof.
  intros Hx Hb. rewrite Index_cons, HasPrefix_char, Hx, Hb. reflexivity.
Qed.

Lemma length_append (a b : string) :
  String.length (a +:+ b) = (String.length a + String.length b)%nat.
Proof.
  induction a as [|x a IH]; [reflexivity|].
  rewrite append_cons. cbn [String.length]. now rewrite IH.
Qed.

Lemma drop_append (a b : string) : Str.drop (String.length a) (a +:+ b) = b.
Proof.
  induction a as [|x a IH]; [now destruct b|].
  rewrite append_cons. exact IH.
Qed.

(** [(a + sep + b)[len a + 1:]] is [b]. *)
Lemma slice_from_after_char (c : ascii) (a b : string) :
  Str.slice_from (a +:+ String c b) (Str.len a + 1) = b.
Proof.
  unfold Str.slice_from, Str.len.
  replace (Z.to_nat (Z.of_nat (String.length a) + 1))
    with (String.length (a +:+ String c EmptyString)).
  - replace (a +:+ String c b) with ((a +:+ String c EmptyString) +:+ b)
      by (now rewrite append_assoc).
    apply drop_append.
  - rewrite length_append. cbn [String.length]. lia.
Qed.

Lemma slice_from_zero (s : string) : Str.slice_from s 0 = s.
Proof. reflexivity. Qed.

(** Both slice expressions of [funcname] are in range, so the Go code
    does not panic there. *)
Lemma funcname_slices_in_range (name : string) :
  let i := Str.LastIndex name "/" in
  let name' := Str.slice_from name (i + 1) in
  let j := Str.Index name' "." in
  0 <= i + 1 <= Str.len name /\ 0 <= j + 1 <= Str.len name'.
Proof.
  intros i name' j.
  pose proof (LastIndex_lower_bound name "/").
  pose proof (Index_lower_bound name' ".").
  assert (Hlt : forall s sep, sep <> "" -> Str.LastIndex s sep < Str.len s).
  { intros s sep Hsep. induction s as [|b s IH].
    - rewrite LastIndex_nil. destruct sep; [congruence|]. simpl. unfold Str.len. simpl. lia.
    - rewrite LastIndex_cons, len_cons. pose proof (len_nonneg s).
      destruct (Z.leb_spec 0 (Str.LastIndex s sep)); [lia|].
      destruct (Str.HasPrefix (String b s) sep); lia. }
  assert (Hlt' : forall s sep, sep <> "" -> Str.Index s sep < Str.len s).
  { intros s sep Hsep. induction s as [|b s IH].
    - rewrite Index_nil. destruct sep; [congruence|]. simpl. unfold Str.len. simpl. lia.
    - rewrite Index_cons, len_cons. pose proof (len_nonneg s).
      destruct (Str.HasPrefix (String b s) sep); [lia|].
      destruct (Z.ltb_spec (Str.Index s sep) 0); lia. }
  pose proof (Hlt name "/" ltac:(discriminate)).
  pose proof (Hlt' name' "." ltac:(discriminate)).
  unfold i, j. lia.
Qed.

(* ===================================================================== *)
(** ** Examples on concrete inputs *)
(* ===================================================================== *)

Example Index_first_dot : Str.Index "errors.frame.Format" "." = 6.
Proof. reflexivity. Qed.

Example LastIndex_last_slash : Str.LastIndex "a/b/c.go" "/" = 3.
Proof. reflexivity. Qed.

Example LastIndex_absent : Str.LastIndex "abc" "/" = -1.
Proof. reflexivity. Qed.

Example Base_of_path : Str.Base "/home/u/src/pkg/file.go" = "file.go".
Proof. reflexivity. Qed.

Example Base_of_slashes : Str.Base "///" = "/".
Proof. reflexivity. Qed.

Example Itoa_values :
  (Str.Itoa 0, Str.Itoa (-12), Str.Itoa 404) = ("0", "-12", "404").
Proof. reflexivity. Qed.

Example WithStatus_404_missing :
  (e <- WithStatus demo_rt 404 (an_error "missing") ;;
   c <- Error_Code e ;;
   t <- Error_Error e ;;
   ret (c, t)) init_state
  = Some ((404, "Status 404 : missing"),
          constructed demo_rt {| code := 404; message := "missing" |} init_state).
Proof. vm_compute. reflexivity. Qed.

Example New_writes_nothing_by_default :
  errorWriter <$> (snd <$> New demo_rt "disk full" init_state) = Some Discard.
Proof. vm_compute. reflexivity. Qed.

Example New_logs_after_SetLogger :
  errorWriter <$> (snd <$> (SetLogger (Buffer "") ;;; New demo_rt "disk full") init_state)
  = Some (Buffer ("main.go 12 Status 0 : disk full 2020-01-02 03:04:05 +0000 UTC" +:+ Str.LF)).
Proof. vm_compute. reflexivity. Qed.

(* ===================================================================== *)
(** ** The constructors *)
(* ===================================================================== *)

(** C3. For every message [m], [New m] returns a StatusError with status
    code 0; for every StatusError the text rendering is exactly
    "Status <code> : <message>"; in particular [New "disk full"] has
    [Code() == 0] and [Error() == "Status 0 : disk full"]. *)
Theorem New_code_zero_and_rendering (rt : Runtime) :
  (forall (m : string) (σ : state),
      exists (l : loc) (σ' : state),
        New rt m σ = Some (Some l, σ') /\
        heap_Error σ !! l = None /\
        heap_Error σ' !! l = Some {| code := 0; message := m |} /\
        Error_Code (Some l) σ' = Some (0, σ')) /\
  (forall (l : loc) (σ : state),
      match heap_Error σ !! l with
      | Some v =>
          Error_Error (Some l) σ =
            Some ("Status " +:+ Str.Itoa (code v) +:+ " : " +:+ message v, σ)
      | None => Error_Error (Some l) σ = None
      end) /\
  (forall σ : state,
      exists (l : loc) (σ' : state),
        New rt "disk full" σ = Some (Some l, σ') /\
        Error_Code (Some l) σ' = Some (0, σ') /\
        Error_Error (Some l) σ' = Some ("Status 0 : disk full", σ')).
Proof.
  split; [|split].
  - intros m σ. eexists _, _. run_plain_constructor.
    split; [reflexivity|]. split; [apply fresh_loc_free|].
    pose proof (constructed_lookup rt {| code := 0; message := m |} σ) as H.
    split; [exact H|]. now rewrite (Error_Code_run _ _ _ H).
  - intros l σ. destruct (heap_Error σ !! l) as [v|] eqn:H.
    + now rewrite (Error_Error_run _ _ _ H).
    + unfold Error_Error, bind, load_Error. now rewrite H.
  - intros σ. eexists _, _. run_plain_constructor.
    pose proof (constructed_lookup rt {| code := 0; message := "disk full" |} σ) as H.
    split; [reflexivity|].
    now rewrite (Error_Code_run _ _ _ H), (Error_Error_run _ _ _ H).
Qed.


Lemma error_Error_state rt err σ text σ1 :
  error_Error rt err σ = Some (text, σ1) -> σ1 = σ.
Proof.
  destruct err as [|msg|e|e]; cbn [error_Error].
  - discriminate.
  - now intros [= _ <-].
  - unfold Error_Error, bind, load_Error, ret.
    destruct e as [l|]; [|discriminate].
    destruct (heap_Error σ !! l); [now intros [= _ <-] | discriminate].
  - unfold StackError_Error, bind, load_StackError, ret.
    destruct e as [l|]; [|discriminate].
    destruct (heap_StackError σ !! l); [now intros [= _ <-] | discriminate].
Qed.

Lemma error_Error_not_nil rt err σ r :
  error_Error rt err σ = Some r -> is_nil err = false.
Proof. destruct err; [discriminate | reflexivity..]. Qed.

Lemma WithStatus_run rt c err text σ :
  error_Error rt err σ = Some (text, σ) ->
  WithStatus rt c err σ =
    Some (Some (fresh (dom (heap_Error σ))),
          constructed rt {| code := c; message := text |} σ).
Proof.
  intros H. unfold WithStatus. rewrite (error_Error_not_nil _ _ _ _ H).
  unfold bind at 1. rewrite H. apply construct_run.
Qed.

Lemma WithMessage_run rt m c err text σ :
  error_Error rt err σ = Some (text, σ) ->
  WithMessage rt m c err σ =
    Some (Some (fresh (dom (heap_Error σ))),
          constructed rt {| code := c; message := m +:+ ": " +:+ text |} σ).
Proof.
  intros H. unfold WithMessage. rewrite (error_Error_not_nil _ _ _ _ H).
  unfold bind at 1. rewrite H. apply construct_run.
Qed.

Lemma WithStack_run rt m c err text σ :
  error_Error rt err σ = Some (text, σ) ->
  WithStack rt m c err σ =
    Some (Some (fresh (dom (heap_StackError σ))),
          {| errorWriter := errorWriter σ;
             heap_Error := heap_Error σ;
             heap_StackError :=
               <[fresh (dom (heap_StackError σ)) :=
                   {| err := {| code := c; message := m +:+ ": " +:+ text |};
                      stack_ptr := Some (callers rt) |}]> (heap_StackError σ) |}).
Proof.
  intros H. unfold WithStack. rewrite (error_Error_not_nil _ _ _ _ H).
  unfold bind. rewrite H. reflexivity.
Qed.

Lemma annotate_panics rt m c err σ :
  is_nil err = false ->
  error_Error rt err σ = None ->
  WithStatus rt c err σ = None /\
  WithMessage rt m c err σ = None /\
  WithStack rt m c err σ = None.
Proof.
  intros Hnil H. unfold WithStatus, WithMessage, WithStack.
  rewrite Hnil. unfold bind. now rewrite H.
Qed.

(** C1, as the specification states it, fails: an interface holding a
    nil [*Error] or [*StackError] is a non-nil cause, it is what the
    constructors of this package hand on for a nil cause, and on it the
    constructors panic, so that no error is returned. *)
Lemma annotate_panics_on_nil_pointer_cause :
  is_nil (Error_as_error None) = false /\
  is_nil (StackError_as_error None) = false /\
  WithStatus demo_rt 500 (Error_as_error None) init_state = None /\
  WithMessage demo_rt "fetch user" 500 (Error_as_error None) init_state = None /\
  WithStack demo_rt "fetch user" 500 (StackError_as_error None) init_state = None /\
  (inner <- WithStatus demo_rt 404 nil_error ;;
   WithStatus demo_rt 500 (Error_as_error inner)) init_state = None.
Proof. repeat split. Qed.

(** C1, amended. For every annotate-with-cause constructor
    ([WithStatus], [WithMessage], [WithStack]): a nil cause gives a nil
    result; a non-nil cause whose [Error] method returns a text gives a
    non-nil error whose [Code()] is the given status code and whose
    rendered text contains that text unchanged; a non-nil cause whose
    [Error] method panics, as that of a nil pointer of this package
    stored in the interface, makes the constructor panic. Asking the
    cause for its text leaves the store as it was. *)
Theorem annotate_nil_in_nil_out_else_code_and_text (rt : Runtime) :
  (forall (c : Z) (σ : state),
      WithStatus rt c nil_error σ = Some (None, σ)) /\
  (forall (m : string) (c : Z) (σ : state),
      WithMessage rt m c nil_error σ = Some (None, σ)) /\
  (forall (m : string) (c : Z) (σ : state),
      WithStack rt m c nil_error σ = Some (None, σ)) /\
  (forall (c : Z) (cause : error) (text : string) (σ : state),
      error_Error rt cause σ = Some (text, σ) ->
      exists (l : loc) (σ' : state) (rendered : string),
        WithStatus rt c cause σ = Some (Some l, σ') /\
        Error_Code (Some l) σ' = Some (c, σ') /\
        Error_Error (Some l) σ' = Some (rendered, σ') /\
        Str.Contains rendered text) /\
  (forall (m : string) (c : Z) (cause : error) (text : string) (σ : state),
      error_Error rt cause σ = Some (text, σ) ->
      exists (l : loc) (σ' : state) (rendered : string),
        WithMessage rt m c cause σ = Some (Some l, σ') /\
        Error_Code (Some l) σ' = Some (c, σ') /\
        Error_Error (Some l) σ' = Some (rendered, σ') /\
        Str.Contains rendered text) /\
  (forall (m : string) (c : Z) (cause : error) (text : string) (σ : state),
      error_Error rt cause σ = Some (text, σ) ->
      exists (l : loc) (σ' : state) (rendered : string),
        WithStack rt m c cause σ = Some (Some l, σ') /\
        StackError_Code (Some l) σ' = Some (c, σ') /\
        StackError_Error rt (Some l) σ' = Some (rendered, σ') /\
        Str.Contains rendered text) /\
  (forall (m : string) (c : Z) (cause : error) (σ : state),
      is_nil cause = false ->
      error_Error rt cause σ = None ->
      WithStatus rt c cause σ = None /\
      WithMessage rt m c cause σ = None /\
      WithStack rt m c cause σ = None) /\
  (forall (cause : error) (text : string) (σ σ1 : state),
      error_Error rt cause σ = Some (text, σ1) -> σ1 = σ) /\
  (forall (text : string) (σ : state),
      error_Error rt (an_error text) σ = Some (text, σ)).
Proof.
  split; [reflexivity|]. split; [reflexivity|]. split; [reflexivity|].
  split; [|split; [|split; [|split; [|split]]]].
  - intros c cause text σ H. eexists _, _, _. rewrite (WithStatus_run _ c _ _ _ H).
    pose proof (constructed_lookup rt {| code := c; message := text |} σ) as Hl.
    rewrite (Error_Code_run _ _ _ Hl), (Error_Error_run _ _ _ Hl).
    repeat split. unfold Error_text. cbn [code message].
    exists ("Status " +:+ Str.Itoa c +:+ " : "), "".
    now rewrite append_empty_r, !append_assoc.
  - intros m c cause text σ H. eexists _, _, _. rewrite (WithMessage_run _ m c _ _ _ H).
    pose proof (constructed_lookup rt {| code := c; message := m +:+ ": " +:+ text |} σ) as Hl.
    rewrite (Error_Code_run _ _ _ Hl), (Error_Error_run _ _ _ Hl).
    repeat split. unfold Error_text. cbn [code message].
    exists ("Status " +:+ Str.Itoa c +:+ " : " +:+ m +:+ ": "), "".
    now rewrite append_empty_r, !append_assoc.
  - intros m c cause text σ H.
    set (v := {| err := {| code := c; message := m +:+ ": " +:+ text |};
                 stack_ptr := Some (callers rt) |}).
    set (l := fresh (dom (heap_StackError σ))).
    set (σ' := {| errorWriter := errorWriter σ; heap_Error := heap_Error σ;
                  heap_StackError := <[l := v]> (heap_StackError σ) |}).
    assert (Hl : heap_StackError σ' !! l = Some v) by apply lookup_insert_eq.
    exists l, σ', (Error_text (err v) +:+ fmt_plus_v_stack rt (stack_ptr v)).
    rewrite (WithStack_run _ m c _ _ _ H).
    rewrite (StackError_Code_run _ _ _ Hl), (StackError_Error_run rt _ _ _ Hl).
    repeat split. unfold Error_text. cbn [code message err v].
    exists ("Status " +:+ Str.Itoa c +:+ " : " +:+ m +:+ ": "),
      (fmt_plus_v_stack rt (Some (callers rt))).
    now rewrite !append_assoc.
  - intros m c cause σ. apply annotate_panics.
  - intros cause text σ σ1. apply error_Error_state.
  - reflexivity.
Qed.

Lemma annotate_nil_in_nil_out_else_code_and_text_witness :
  error_Error demo_rt (Error_as_error (Some 1%positive)) demo_state
    = Some ("Status 0 : disk full", demo_state) /\
  (exists (l : loc) (σ' : state) (rendered : string),
      WithStatus demo_rt 500 (Error_as_error (Some 1%positive)) demo_state
        = Some (Some l, σ') /\
      Error_Code (Some l) σ' = Some (500, σ') /\
      Error_Error (Some l) σ' = Some (rendered, σ') /\
      Str.Contains rendered "Status 0 : disk full") /\
  (exists (l : loc) (σ' : state) (rendered : string),
      WithMessage demo_rt "fetch user" 500 (Error_as_error (Some 1%positive)) demo_state
        = Some (Some l, σ') /\
      Error_Code (Some l) σ' = Some (500, σ') /\
      Error_Error (Some l) σ' = Some (rendered, σ') /\
      Str.Contains rendered "Status 0 : disk full") /\
  (exists (l : loc) (σ' : state) (rendered : string),
      WithStack demo_rt "fetch user" 500 (Error_as_error (Some 1%positive)) demo_state
        = Some (Some l, σ') /\
      StackError_Code (Some l) σ' = Some (500, σ') /\
      StackError_Error demo_rt (Some l) σ' = Some (rendered, σ') /\
      Str.Contains rendered "Status 0 : disk full") /\
  (is_nil (Error_as_error None) = false /\
   error_Error demo_rt (Error_as_error None) init_state = None /\
   WithStatus demo_rt 500 (Error_as_error None) init_state = None /\
   WithMessage demo_rt "fetch user" 500 (Error_as_error None) init_state = None /\
   WithStack demo_rt "fetch user" 500 (Error_as_error None) init_state = None) /\
  demo_state = demo_state.
Proof.
  destruct (annotate_nil_in_nil_out_else_code_and_text demo_rt)
    as (_ & _ & _ & HStatus & HMessage & HStack & Hpanic & Hstate & _).
  split; [reflexivity|].
  split; [apply HStatus; reflexivity|].
  split; [apply HMessage; reflexivity|].
  split; [apply HStack; reflexivity|].
  split.
  - split; [reflexivity|]. split; [reflexivity|].
    apply Hpanic; reflexivity.
  - apply (Hstate (Error_as_error (Some 1%positive)) "Status 0 : disk full"). reflexivity.
Defined.

(* ===================================================================== *)
(** ** The structured encoding *)
(* ===================================================================== *)

Lemma Atoi_Itoa (z : Z) : Str.Atoi (Str.Itoa z) = Some z.
Proof.
  unfold Str.Atoi, Str.Itoa.
  rewrite NilZero.isi.
  - simpl. now rewrite DecimalZ.of_to.
  - destruct z; simpl; try discriminate.
    intros [= H]. now apply (DecimalPos.Unsigned.to_uint_nonnil p).
  - destruct z; simpl; try discriminate.
    intros [= H]. now apply (DecimalPos.Unsigned.to_uint_nonnil p).
Qed.

Lemma Itoa_negative (p : positive) :
  Str.Itoa (Z.neg p) = "-" +:+ Str.Itoa (Z.pos p).
Proof. reflexivity. Qed.

Lemma errMap_lookup_error (e : Error) : errMap e !! "error" = Some (message e).
Proof. unfold errMap. now rewrite lookup_insert_ne, lookup_insert_eq. Qed.

Lemma errMap_lookup_code (e : Error) : errMap e !! "code" = Some (Str.Itoa (code e)).
Proof. unfold errMap. now rewrite lookup_insert_eq. Qed.

Lemma errMap_dom (e : Error) : dom (errMap e) = ({[ "error"; "code" ]} : gset string).
Proof. unfold errMap. rewrite !dom_insert_L. set_solver. Qed.

Lemma json_object_errMap (quote : string -> string) (e : Error) :
  json_object quote (errMap e) =
    "{" +:+ quote "code" +:+ ":" +:+ quote (Str.Itoa (code e)) +:+ "," +:+
    quote "error" +:+ ":" +:+ quote (message e) +:+ "}".
Proof.
  unfold json_object, errMap.
  replace (map_to_list (<["code":=Str.Itoa (code e)]> (<["error":=message e]> ∅)))
    with [("code", Str.Itoa (code e)); ("error", message e)].
  - vm_compute merge_sort. unfold json_member. cbn [List.map String.concat fst snd].
    now rewrite !append_assoc.
  - generalize (Str.Itoa (code e)) (message e). intros a b. vm_compute. reflexivity.
Qed.

Lemma Error_MarshalJSON_run (quote : string -> string) l σ v :
  heap_Error σ !! l = Some v ->
  Error_MarshalJSON quote (Some l) σ =
    Some ((json_object quote (errMap v), nil_error), σ).
Proof.
  intros H. unfold Error_MarshalJSON, bind. now rewrite (load_Error_run _ _ _ H).
Qed.

(** C4. For every StatusError, the structured encoding is a mapping with
    exactly two keys: "error" mapped to the message and "code" mapped to
    the base-10 string of the status code (a string, not a number), also
    when the code is 0 or negative. *)
Theorem MarshalJSON_error_and_code_as_text (quote : string -> string) :
  (forall e : Error,
      dom (errMap e) = ({[ "error"; "code" ]} : gset string) /\
      size (errMap e) = 2%nat /\
      errMap e !! "error" = Some (message e) /\
      errMap e !! "code" = Some (Str.Itoa (code e))) /\
  (forall z : Z, Str.Atoi (Str.Itoa z) = Some z) /\
  Str.Itoa 0 = "0" /\
  (forall p : positive, Str.Itoa (Z.neg p) = "-" +:+ Str.Itoa (Z.pos p)) /\
  (forall (l : loc) (σ : state),
      match heap_Error σ !! l with
      | Some v =>
          Error_MarshalJSON quote (Some l) σ =
            Some (("{" +:+ quote "code" +:+ ":" +:+ quote (Str.Itoa (code v)) +:+ "," +:+
                   quote "error" +:+ ":" +:+ quote (message v) +:+ "}",
                   nil_error), σ)
      | None => Error_MarshalJSON quote (Some l) σ = None
      end).
Proof.
  split; [|split; [|split; [|split]]].
  - intros e. split; [apply errMap_dom|]. split; [|split].
    + unfold errMap. rewrite map_size_insert_None.
      * now rewrite map_size_insert_None, map_size_empty by apply lookup_empty.
      * now rewrite lookup_insert_ne, lookup_empty.
    + apply errMap_lookup_error.
    + apply errMap_lookup_code.
  - apply Atoi_Itoa.
  - reflexivity.
  - apply Itoa_negative.
  - intros l σ. destruct (heap_Error σ !! l) as [v|] eqn:H.
    + now rewrite (Error_MarshalJSON_run quote _ _ _ H), json_object_errMap.
    + unfold Error_MarshalJSON, bind, load_Error. now rewrite H.
Qed.

(** C10. For every StatusError, whatever its message and code,
    [MarshalJSON] returns a nil error. *)
Theorem MarshalJSON_returns_nil_error
    (quote : string -> string) (l : loc) (σ : state) (v : Error) :
  heap_Error σ !! l = Some v ->
  exists bytes : string,
    Error_MarshalJSON quote (Some l) σ = Some ((bytes, nil_error), σ).
Proof.
  intros H. exists (json_object quote (errMap v)).
  now apply Error_MarshalJSON_run.
Qed.

Lemma MarshalJSON_returns_nil_error_witness :
  heap_Error (constructed demo_rt {| code := -3; message := "disk full" |} init_state)
    !! 1%positive = Some {| code := -3; message := "disk full" |} /\
  exists bytes : string,
    Error_MarshalJSON demo_quote (Some 1%positive)
      (constructed demo_rt {| code := -3; message := "disk full" |} init_state)
    = Some ((bytes, nil_error),
            constructed demo_rt {| code := -3; message := "disk full" |} init_state).
Proof.
  split.
  - vm_compute. reflexivity.
  - apply (MarshalJSON_returns_nil_error demo_quote 1%positive _
             {| code := -3; message := "disk full" |}).
    vm_compute. reflexivity.
Defined.

Example MarshalJSON_disk_full :
  fst <$> (e <- New demo_rt "disk full" ;; Error_MarshalJSON demo_quote e) init_state
  = Some ("{" +:+ demo_quote "code" +:+ ":" +:+ demo_quote "0" +:+ "," +:+
          demo_quote "error" +:+ ":" +:+ demo_quote "disk full" +:+ "}", nil_error).
Proof. vm_compute. reflexivity. Qed.

(* ===================================================================== *)
(** ** The status mutators *)
(* ===================================================================== *)

Lemma Error_WithStatus_run l σ v status :
  heap_Error σ !! l = Some v ->
  Error_WithStatus (Some l) status σ =
    Some (Some l,
          {| errorWriter := errorWriter σ;
             heap_Error := <[l := {| code := status; message := message v |}]> (heap_Error σ);
             heap_StackError := heap_StackError σ |}).
Proof.
  intros H. unfold Error_WithStatus, bind.
  rewrite (load_Error_run _ _ _ H). unfold store_Error. now rewrite H.
Qed.

Lemma StackError_WithStatus_run l σ v status :
  heap_StackError σ !! l = Some v ->
  StackError_WithStatus (Some l) status σ =
    Some (tt,
          {| errorWriter := errorWriter σ;
             heap_Error := heap_Error σ;
             heap_StackError :=
               <[l := {| err := {| code := status; message := message (err v) |};
                         stack_ptr := stack_ptr v |}]> (heap_StackError σ) |}).
Proof.
  intros H. unfold StackError_WithStatus, bind.
  rewrite (load_StackError_run _ _ _ H). unfold store_StackError. now rewrite H.
Qed.

(** C7. The status mutator on a StatusError sets the code in place and
    returns the same object: a following [Code()] gives the new value
    and the message is unchanged. The status mutator on a StackError
    returns no value, and a following [Code()] gives the new value. *)
Theorem WithStatus_mutators_in_place (status : Z) :
  (forall (l : loc) (σ : state) (v : Error),
      heap_Error σ !! l = Some v ->
      exists σ' : state,
        Error_WithStatus (Some l) status σ = Some (Some l, σ') /\
        heap_Error σ' = <[l := {| code := status; message := message v |}]> (heap_Error σ) /\
        heap_StackError σ' = heap_StackError σ /\
        errorWriter σ' = errorWriter σ /\
        Error_Code (Some l) σ' = Some (status, σ') /\
        Error_Error (Some l) σ' =
          Some ("Status " +:+ Str.Itoa status +:+ " : " +:+ message v, σ')) /\
  (forall (l : loc) (σ : state) (s : StackError),
      heap_StackError σ !! l = Some s ->
      exists σ' : state,
        StackError_WithStatus (Some l) status σ = Some (tt, σ') /\
        heap_StackError σ' =
          <[l := {| err := {| code := status; message := message (err s) |};
                    stack_ptr := stack_ptr s |}]> (heap_StackError σ) /\
        heap_Error σ' = heap_Error σ /\
        errorWriter σ' = errorWriter σ /\
        StackError_Code (Some l) σ' = Some (status, σ')).
Proof.
  split.
  - intros l σ v H. eexists. rewrite (Error_WithStatus_run _ _ _ status H).
    split; [reflexivity|]. cbn [heap_Error heap_StackError errorWriter].
    repeat (split; [reflexivity|]).
    split.
    + erewrite Error_Code_run by (cbn [heap_Error]; apply lookup_insert_eq).
      reflexivity.
    + erewrite Error_Error_run by (cbn [heap_Error]; apply lookup_insert_eq).
      reflexivity.
  - intros l σ s H. eexists. rewrite (StackError_WithStatus_run _ _ _ status H).
    split; [reflexivity|]. cbn [heap_Error heap_StackError errorWriter].
    repeat (split; [reflexivity|]).
    erewrite StackError_Code_run by (cbn [heap_StackError]; apply lookup_insert_eq).
    reflexivity.
Qed.

Lemma WithStatus_mutators_in_place_witness :
  (heap_Error demo_state !! 1%positive = Some {| code := 0; message := "disk full" |} /\
   exists σ' : state,
     Error_WithStatus (Some 1%positive) 404 demo_state = Some (Some 1%positive, σ') /\
     heap_Error σ' =
       <[1%positive := {| code := 404; message := "disk full" |}]> (heap_Error demo_state) /\
     heap_StackError σ' = heap_StackError demo_state /\
     errorWriter σ' = errorWriter demo_state /\
     Error_Code (Some 1%positive) σ' = Some (404, σ') /\
     Error_Error (Some 1%positive) σ' =
       Some ("Status " +:+ Str.Itoa 404 +:+ " : " +:+ "disk full", σ')) /\
  (heap_StackError demo_state !! 1%positive =
     Some {| err := {| code := 500; message := "fetch user: db down" |};
             stack_ptr := Some [101; 201; 301] |} /\
   exists σ' : state,
     StackError_WithStatus (Some 1%positive) 404 demo_state = Some (tt, σ') /\
     heap_StackError σ' =
       <[1%positive := {| err := {| code := 404; message := "fetch user: db down" |};
                          stack_ptr := Some [101; 201; 301] |}]>
         (heap_StackError demo_state) /\
     heap_Error σ' = heap_Error demo_state /\
     errorWriter σ' = errorWriter demo_state /\
     StackError_Code (Some 1%positive) σ' = Some (404, σ')).
Proof.
  split; (split; [vm_compute; reflexivity|]).
  - apply (proj1 (WithStatus_mutators_in_place 404) 1%positive demo_state
             {| code := 0; message := "disk full" |}).
    vm_compute. reflexivity.
  - apply (proj2 (WithStatus_mutators_in_place 404) 1%positive demo_state
             {| err := {| code := 500; message := "fetch user: db down" |};
                stack_ptr := Some [101; 201; 301] |}).
    vm_compute. reflexivity.
Defined.

(* ===================================================================== *)
(** ** Rendering a StackError *)
(* ===================================================================== *)

Lemma fold_left_append_acc {A} (f : A -> string) (l : list A) (acc : string) :
  List.fold_left (fun out a => out +:+ f a) l acc
  = acc +:+ List.fold_left (fun out a => out +:+ f a) l "".
Proof.
  revert acc. induction l as [|a l IH]; intros acc; cbn [List.fold_left].
  - now rewrite append_empty_r.
  - rewrite IH, (IH ("" +:+ f a)), append_nil. apply append_assoc.
Qed.

Lemma fmt_plus_v_stack_nil (rt : Runtime) : fmt_plus_v_stack rt (Some []) = "".
Proof. reflexivity. Qed.

Lemma fmt_plus_v_stack_cons (rt : Runtime) (pc : uintptr) (st : stack) :
  fmt_plus_v_stack rt (Some (pc :: st))
  = Str.LF +:+ frame_Format rt pc true "v" +:+ fmt_plus_v_stack rt (Some st).
Proof.
  unfold fmt_plus_v_stack, stack_Format.
  cbn [Ascii.eqb Bool.eqb andb List.fold_left].
  rewrite (fold_left_append_acc (fun pc => Str.LF +:+ frame_Format rt pc true "v")).
  now rewrite append_nil, append_assoc.
Qed.

(** C6. For every StackError, the rendered text begins with exactly the
    inner StatusError's rendered text, "Status <code> : <message>",
    followed by the stack content; rendering the same StackError twice
    with no mutation in between gives identical output. *)
Theorem StackError_text_prefix_and_stable
    (rt : Runtime) (l : loc) (σ : state) (s : StackError) :
  heap_StackError σ !! l = Some s ->
  let inner := "Status " +:+ Str.Itoa (code (err s)) +:+ " : " +:+ message (err s) in
  let rendered := inner +:+ fmt_plus_v_stack rt (stack_ptr s) in
  StackError_Error rt (Some l) σ = Some (rendered, σ) /\
  Str.HasPrefix rendered inner = true /\
  (r1 <- StackError_Error rt (Some l) ;;
   r2 <- StackError_Error rt (Some l) ;;
   ret (r1, r2)) σ = Some ((rendered, rendered), σ) /\
  (forall (pc : uintptr) (st : stack),
      fmt_plus_v_stack rt (Some (pc :: st))
      = Str.LF +:+ frame_Format rt pc true "v" +:+ fmt_plus_v_stack rt (Some st)) /\
  fmt_plus_v_stack rt (Some []) = "".
Proof.
  intros H inner rendered.
  assert (Hrun : StackError_Error rt (Some l) σ = Some (rendered, σ))
    by exact (StackError_Error_run rt _ _ _ H).
  split; [exact Hrun|]. split; [apply HasPrefix_append|].
  split; [|split; [apply fmt_plus_v_stack_cons | reflexivity]].
  unfold bind. rewrite Hrun, Hrun. reflexivity.
Qed.

Lemma StackError_text_prefix_and_stable_witness :
  heap_StackError demo_state !! 1%positive =
    Some {| err := {| code := 500; message := "fetch user: db down" |};
            stack_ptr := Some [101; 201; 301] |} /\
  StackError_Error demo_rt (Some 1%positive) demo_state
  = Some ("Status 500 : fetch user: db down" +:+ Str.LF +:+
          "github.com/cristalcode/errors.frame.Format" +:+ Str.LF +:+ Str.TAB +:+
          "/go/src/github.com/cristalcode/errors/stack.go:51" +:+ Str.LF +:+
          "main.main" +:+ Str.LF +:+ Str.TAB +:+ "/app/main.go:12" +:+ Str.LF +:+
          "unknown:0", demo_state).
Proof.
  split; [vm_compute; reflexivity|].
  refine (eq_trans
            (proj1 (StackError_text_prefix_and_stable demo_rt 1%positive demo_state
                      {| err := {| code := 500; message := "fetch user: db down" |};
                         stack_ptr := Some [101; 201; 301] |} _)) _);
    vm_compute; reflexivity.
Defined.

(* ===================================================================== *)
(** ** Stack capture *)
(* ===================================================================== *)

Lemma callers_eq (rt : Runtime) :
  callers rt = List.firstn depth (List.skipn 3 (rt_stack rt)).
Proof.
  unfold callers, runtime_Callers.
  set (avail := List.skipn 3 (rt_stack rt)).
  rewrite List.repeat_length.
  rewrite List.firstn_app, List.firstn_firstn, Nat.min_id.
  rewrite List.length_firstn.
  replace (Nat.min depth (length avail) - Nat.min (Nat.min depth (length avail)) (length avail))%nat
    with 0%nat by lia.
  cbn [List.firstn]. rewrite List.app_nil_r.
  destruct (Nat.le_ge_cases depth (length avail)) as [Hle|Hge].
  - now rewrite Nat.min_l.
  - rewrite Nat.min_r by exact Hge.
    now rewrite !List.firstn_all2.
Qed.

(** C8. Every captured stack has at most 32 frames whatever the call
    depth at capture time; a deeper stack is cut at the cap and the
    capturing constructor still returns. *)
Theorem captured_stack_at_most_32_frames (rt : Runtime) :
  (length (callers rt) <= 32)%nat /\
  length (callers rt) = Nat.min 32 (length (rt_stack rt) - 3) /\
  callers rt = List.firstn 32 (List.skipn 3 (rt_stack rt)) /\
  (forall (m : string) (c : Z) (text : string) (σ : state),
      exists (l : loc) (σ' : state) (s : StackError),
        WithStack rt m c (an_error text) σ = Some (Some l, σ') /\
        heap_StackError σ' !! l = Some s /\
        stack_ptr s = Some (callers rt) /\
        (length (callers rt) <= 32)%nat).
Proof.
  assert (Hlen : length (callers rt) = Nat.min 32 (length (rt_stack rt) - 3)).
  { rewrite callers_eq, List.length_firstn, List.length_skipn. reflexivity. }
  split; [lia|]. split; [exact Hlen|]. split; [apply callers_eq|].
  intros m c text σ. eexists _, _, _. unfold WithStack, new_StackError.
  split; [reflexivity|]. cbn [heap_StackError].
  split; [apply lookup_insert_eq|]. split; [reflexivity | lia].
Qed.

Example callers_truncates_forty_frames :
  callers demo_rt = List.map Z.of_nat (List.seq 4 32) /\ length (rt_stack demo_rt) = 40%nat.
Proof. split; vm_compute; reflexivity. Qed.

Example callers_shallow_stack : callers stripped_rt = [].
Proof. reflexivity. Qed.

(* ===================================================================== *)
(** ** Resolution failures *)
(* ===================================================================== *)

Lemma log_line_unresolved (rt : Runtime) (v : Error) :
  rt_Caller rt 2 = None ->
  log_line rt v = "??? 1 " +:+ Error_text v +:+ " " +:+ rt_Now rt +:+ Str.LF.
Proof.
  intros H. unfold log_line, caller_location. rewrite H.
  cbn [fst snd String.concat]. change (Str.Itoa 1) with "1".
  now rewrite !append_assoc.
Qed.

(** C9. No operation fails under a resolution failure: for a frame the
    runtime cannot resolve, the short form renders "unknown" and the
    line is 0; when the caller's location cannot be resolved while
    logging, the file renders as "???" and the line as 1, and the
    constructor still returns its error. *)
Theorem resolution_failures_degrade (rt : Runtime) :
  (forall f : frame,
      rt_FuncForPC rt (frame_pc rt f) = None ->
      frame_file rt f = "unknown" /\
      frame_line rt f = 0 /\
      frame_Format rt f false "s" = "unknown" /\
      frame_Format rt f true "s" = "unknown" /\
      frame_Format rt f false "d" = "0" /\
      frame_Format rt f false "v" = "unknown:0" /\
      frame_Format rt f true "v" = "unknown:0" /\
      frame_Format rt f false "n" = "") /\
  (rt_Caller rt 2 = None ->
   (forall (m : string) (σ : state),
       exists (l : loc) (σ' : state),
         New rt m σ = Some (Some l, σ') /\
         heap_Error σ' !! l = Some {| code := 0; message := m |} /\
         errorWriter σ' =
           Writer_Write (errorWriter σ)
             ("??? 1 " +:+ "Status 0 : " +:+ m +:+ " " +:+ rt_Now rt +:+ Str.LF)) /\
   (forall (c : Z) (text : string) (σ : state),
       exists (l : loc) (σ' : state),
         WithStatus rt c (an_error text) σ = Some (Some l, σ') /\
         heap_Error σ' !! l = Some {| code := c; message := text |} /\
         errorWriter σ' =
           Writer_Write (errorWriter σ)
             ("??? 1 " +:+ "Status " +:+ Str.Itoa c +:+ " : " +:+ text +:+ " " +:+
              rt_Now rt +:+ Str.LF)) /\
   (forall (m : string) (c : Z) (text : string) (σ : state),
       exists (l : loc) (σ' : state),
         WithMessage rt m c (an_error text) σ = Some (Some l, σ') /\
         heap_Error σ' !! l = Some {| code := c; message := m +:+ ": " +:+ text |} /\
         errorWriter σ' =
           Writer_Write (errorWriter σ)
             ("??? 1 " +:+ "Status " +:+ Str.Itoa c +:+ " : " +:+ (m +:+ ": " +:+ text) +:+
              " " +:+ rt_Now rt +:+ Str.LF))).
Proof.
  split.
  - intros f H.
    unfold frame_Format, frame_Format_s, frame_Format_d, frame_file, frame_line.
    rewrite H. repeat split.
  - intros H. split; [|split].
    + intros m σ. eexists _, _. run_plain_constructor.
      split; [reflexivity|]. split; [apply constructed_lookup|].
      cbn [constructed errorWriter]. rewrite (log_line_unresolved _ _ H).
      unfold Error_text. cbn [code message]. change (Str.Itoa 0) with "0".
      now rewrite !append_assoc.
    + intros c text σ. eexists _, _. run_plain_constructor.
      split; [reflexivity|]. split; [apply constructed_lookup|].
      cbn [constructed errorWriter]. rewrite (log_line_unresolved _ _ H).
      unfold Error_text. cbn [code message].
      now rewrite !append_assoc.
    + intros m c text σ. eexists _, _. run_plain_constructor.
      split; [reflexivity|]. split; [apply constructed_lookup|].
      cbn [constructed errorWriter]. rewrite (log_line_unresolved _ _ H).
      unfold Error_text. cbn [code message].
      now rewrite !append_assoc.
Qed.

Lemma resolution_failures_degrade_witness :
  (rt_FuncForPC stripped_rt (frame_pc stripped_rt 101) = None /\
   frame_Format stripped_rt 101 false "s" = "unknown" /\
   frame_line stripped_rt 101 = 0) /\
  (rt_Caller stripped_rt 2 = None /\
   exists (l : loc) (σ' : state),
     New stripped_rt "disk full" (mkState (Buffer "") ∅ ∅) = Some (Some l, σ') /\
     errorWriter σ' =
       Buffer ("??? 1 Status 0 : disk full 2020-01-02 03:04:05 +0000 UTC" +:+ Str.LF)).
Proof.
  split; (split; [reflexivity|]).
  - destruct (proj1 (resolution_failures_degrade stripped_rt) 101 eq_refl)
      as (_ & Hline & Hshort & _).
    exact (conj Hshort Hline).
  - destruct (proj1 (proj2 (resolution_failures_degrade stripped_rt) eq_refl)
                "disk full" (mkState (Buffer "") ∅ ∅))
      as (l & σ' & Hnew & _ & Hw).
    exists l, σ'. split; [exact Hnew|]. rewrite Hw. vm_compute. reflexivity.
Defined.

(* ===================================================================== *)
(** ** The displayed function name *)
(* ===================================================================== *)

Lemma funcname_qualified (dir pkg rest : string) :
  Str.Index pkg "/" = -1 ->
  Str.Index pkg "." = -1 ->
  Str.Index rest "/" = -1 ->
  funcname (dir +:+ "/" +:+ pkg +:+ "." +:+ rest) = rest.
Proof.
  intros Hpkg_slash Hpkg_dot Hrest.
  unfold funcname.
  assert (Htail : Str.Index (pkg +:+ "." +:+ rest) "/" = -1).
  { apply Index_absent_append; [exact Hpkg_slash|].
    change ("." +:+ rest) with (String "."%char rest).
    now apply Index_absent_cons. }
  change ("/" +:+ pkg +:+ "." +:+ rest) with (String "/"%char (pkg +:+ "." +:+ rest)).
  rewrite (LastIndex_append_char "/" dir _ Htail), slice_from_after_char.
  change ("." +:+ rest) with (String "."%char rest).
  rewrite (Index_append_char "." pkg rest Hpkg_dot).
  apply slice_from_after_char.
Qed.

Lemma funcname_unqualified (pkg rest : string) :
  Str.Index pkg "/" = -1 ->
  Str.Index pkg "." = -1 ->
  Str.Index rest "/" = -1 ->
  funcname (pkg +:+ "." +:+ rest) = rest.
Proof.
  intros Hpkg_slash Hpkg_dot Hrest.
  unfold funcname.
  assert (Htail : Str.LastIndex (pkg +:+ "." +:+ rest) "/" = -1).
  { apply LastIndex_absent_iff, Index_absent_append; [exact Hpkg_slash|].
    change ("." +:+ rest) with (String "."%char rest).
    now apply Index_absent_cons. }
  rewrite Htail. change (-1 + 1) with 0. rewrite slice_from_zero.
  change ("." +:+ rest) with (String "."%char rest).
  rewrite (Index_append_char "." pkg rest Hpkg_dot).
  apply slice_from_after_char.
Qed.

(** C5, as the specification states it, fails: for the method
    [errors.frame.Format] the displayed name keeps the receiver type. *)
Lemma displayed_name_keeps_receiver :
  Name (rt_FuncForPC demo_rt (frame_pc demo_rt 101)) = "github.com/cristalcode/errors.frame.Format" /\
  funcname_as_specified (Name (rt_FuncForPC demo_rt (frame_pc demo_rt 101))) = "Format" /\
  frame_Format demo_rt 101 false "n" = "frame.Format" /\
  frame_Format demo_rt 101 false "n"
    <> funcname_as_specified (Name (rt_FuncForPC demo_rt (frame_pc demo_rt 101))).
Proof. repeat split; vm_compute; try reflexivity; discriminate. Qed.

(** C5, amended. For every captured frame, the displayed function name
    is the runtime function name with the path prefix (everything up to
    the last slash) removed and then the package qualifier (everything
    up to the first dot of what is left) removed; what follows, the
    receiver-type qualifier of a method included, is kept. *)
Theorem displayed_name_strips_path_and_package
    (rt : Runtime) (f : frame) (plus : bool) (dir pkg rest : string) :
  Str.Index pkg "/" = -1 ->
  Str.Index pkg "." = -1 ->
  Str.Index rest "/" = -1 ->
  frame_Format rt f plus "n" = funcname (Name (rt_FuncForPC rt (frame_pc rt f))) /\
  funcname (dir +:+ "/" +:+ pkg +:+ "." +:+ rest) = rest /\
  funcname (pkg +:+ "." +:+ rest) = rest.
Proof.
  intros H1 H2 H3. split; [reflexivity|].
  split; [now apply funcname_qualified | now apply funcname_unqualified].
Qed.

Lemma displayed_name_strips_path_and_package_witness :
  (Str.Index "errors" "/" = -1 /\ Str.Index "errors" "." = -1 /\
   Str.Index "frame.Format" "/" = -1) /\
  frame_Format demo_rt 101 true "n" = funcname (Name (rt_FuncForPC demo_rt (frame_pc demo_rt 101))) /\
  funcname ("github.com/cristalcode" +:+ "/" +:+ "errors" +:+ "." +:+ "frame.Format")
    = "frame.Format" /\
  funcname ("errors" +:+ "." +:+ "frame.Format") = "frame.Format".
Proof.
  split; [repeat split|].
  apply (displayed_name_strips_path_and_package demo_rt 101 true
           "github.com/cristalcode" "errors" "frame.Format"); reflexivity.
Defined.

(* ===================================================================== *)
(** ** More facts about the string functions *)
(* ===================================================================== *)

Lemma take_drop (n : nat) (s : string) : s = Str.take n s +:+ Str.drop n s.
Proof.
  revert s. induction n as [|n IH]; intros [|c s]; try reflexivity.
  cbn [Str.take Str.drop]. rewrite append_cons. f_equal. apply IH.
Qed.

Lemma take_append (a b : string) : Str.take (String.length a) (a +:+ b) = a.
Proof.
  induction a as [|x a IH]; [now destruct b|].
  rewrite append_cons. cbn [String.length Str.take]. now f_equal.
Qed.

Lemma slice_to_append (a b : string) : Str.slice_to (a +:+ b) (Str.len a) = a.
Proof. unfold Str.slice_to, Str.len. rewrite Nat2Z.id. apply take_append. Qed.

(** A separator that is found splits the string at its last instance. *)
Lemma LastIndex_found (c : ascii) (s : string) :
  0 <= Str.LastIndex s (String c EmptyString) ->
  exists a b : string,
    s = a +:+ String c b /\
    Str.len a = Str.LastIndex s (String c EmptyString) /\
    Str.Index b (String c EmptyString) = -1.
Proof.
  induction s as [|x s IH]; intros H.
  - rewrite LastIndex_nil in H. simpl in H. lia.
  - rewrite LastIndex_cons in *.
    pose proof (LastIndex_lower_bound s (String c EmptyString)) as Hlow.
    destruct (Z.leb_spec 0 (Str.LastIndex s (String c EmptyString))) as [Hs|Hs].
    + destruct (IH Hs) as (a & b & -> & Hlen & Hb).
      exists (String x a), b. rewrite append_cons, len_cons, Hlen. auto.
    + rewrite HasPrefix_char in *.
      destruct (Ascii.eqb_spec c x) as [->|]; [|lia].
      exists "", s. repeat split.
      apply LastIndex_absent_iff. lia.
Qed.

(** Nothing after the last separator contains the separator. *)
Lemma no_separator_after_LastIndex (c : ascii) (s : string) :
  Str.Index (Str.slice_from s (Str.LastIndex s (String c EmptyString) + 1))
            (String c EmptyString) = -1.
Proof.
  pose proof (LastIndex_lower_bound s (String c EmptyString)) as Hlow.
  destruct (Z.leb_spec 0 (Str.LastIndex s (String c EmptyString))) as [H|H].
  - destruct (LastIndex_found c s H) as (a & b & Hs & Hlen & Hb).
    rewrite <- Hlen. rewrite Hs at 1. now rewrite slice_from_after_char.
  - replace (Str.LastIndex s (String c EmptyString)) with (-1) by lia.
    change (-1 + 1) with 0. rewrite slice_from_zero.
    apply LastIndex_absent_iff. lia.
Qed.

Lemma Index_absent_tail (c x : ascii) (s : string) :
  Str.Index (String x s) (String c EmptyString) = -1 ->
  Ascii.eqb c x = false /\ Str.Index s (String c EmptyString) = -1.
Proof.
  rewrite Index_cons, HasPrefix_char.
  pose proof (Index_lower_bound s (String c EmptyString)).
  destruct (Ascii.eqb c x); [discriminate|].
  destruct (Z.ltb_spec (Str.Index s (String c EmptyString)) 0); intros; split; auto; lia.
Qed.

Lemma Index_absent_drop (c : ascii) (n : nat) (s : string) :
  Str.Index s (String c EmptyString) = -1 ->
  Str.Index (Str.drop n s) (String c EmptyString) = -1.
Proof.
  revert s. induction n as [|n IH]; intros [|x s] H; try exact H.
  cbn [Str.drop]. apply IH. now apply Index_absent_tail in H.
Qed.

Lemma Count_nonneg (s : string) (c : ascii) : 0 <= Str.Count s c.
Proof. induction s as [|x s IH]; cbn [Str.Count]; [lia|]. destruct (Ascii.eqb c x); lia. Qed.

Lemma Count_append (a b : string) (c : ascii) :
  Str.Count (a +:+ b) c = Str.Count a c + Str.Count b c.
Proof.
  induction a as [|x a IH]; [reflexivity|].
  rewrite append_cons. cbn [Str.Count]. rewrite IH. lia.
Qed.

Lemma Count_absent (s : string) (c : ascii) :
  Str.Index s (String c EmptyString) = -1 <-> Str.Count s c = 0.
Proof.
  induction s as [|x s IH]; [simpl; tauto|].
  rewrite Index_cons, HasPrefix_char. cbn [Str.Count].
  pose proof (Count_nonneg s c). pose proof (Index_lower_bound s (String c EmptyString)).
  destruct (Ascii.eqb c x).
  - split; [discriminate | lia].
  - destruct (Z.ltb_spec (Str.Index s (String c EmptyString)) 0) as [Hlt|Hge].
    + split; [intros _ | reflexivity].
      assert (Str.Count s c = 0) by (apply IH; lia). lia.
    + split; [lia | intros Hc].
      assert (Str.Index s (String c EmptyString) = -1) by (apply IH; lia). lia.
Qed.

Lemma Count_separator (c : ascii) (b : string) : Str.Count (String c b) c = 1 + Str.Count b c.
Proof. cbn [Str.Count]. now rewrite Ascii.eqb_refl. Qed.

(* ===================================================================== *)
(** ** The diagnostic line *)
(* ===================================================================== *)

Lemma state_eta (σ : state) :
  {| errorWriter := errorWriter σ; heap_Error := heap_Error σ;
     heap_StackError := heap_StackError σ |} = σ.
Proof. now destruct σ. Qed.

Lemma slice_from_suffix (s : string) (i : Z) :
  exists pre : string, s = pre +:+ Str.slice_from s i.
Proof. exists (Str.take (Z.to_nat i) s). apply take_drop. Qed.

Lemma caller_location_no_slash (rt : Runtime) :
  Str.Index (caller_location rt).1 "/" = -1.
Proof.
  unfold caller_location. destruct (rt_Caller rt 2) as [[file line]|]; [|reflexivity].
  destruct (Z.leb_spec 0 (Str.LastIndex file "/")) as [H|H]; cbn [fst].
  - apply no_separator_after_LastIndex.
  - assert (Hfile : Str.Index file "/" = -1).
    { apply LastIndex_absent_iff. pose proof (LastIndex_lower_bound file "/"). lia. }
    destruct (0 <=? Str.LastIndex file "\"); cbn [fst]; [|exact Hfile].
    now apply Index_absent_drop.
Qed.

Lemma caller_location_resolved (rt : Runtime) (file : string) (line : Z) :
  rt_Caller rt 2 = Some (file, line) ->
  (caller_location rt).2 = line /\
  exists dir : string, file = dir +:+ (caller_location rt).1.
Proof.
  intros H. unfold caller_location. rewrite H.
  destruct (0 <=? Str.LastIndex file "/"); cbn [fst snd].
  - split; [reflexivity | apply slice_from_suffix].
  - destruct (0 <=? Str.LastIndex file "\"); cbn [fst snd].
    + split; [reflexivity | apply slice_from_suffix].
    + split; [reflexivity | now exists ""].
Qed.

Lemma log_line_flat (rt : Runtime) (v : Error) :
  log_line rt v =
    (caller_location rt).1 +:+ " " +:+ Str.Itoa (caller_location rt).2 +:+ " " +:+
    "Status " +:+ Str.Itoa (code v) +:+ " : " +:+ message v +:+ " " +:+ rt_Now rt +:+ Str.LF.
Proof.
  unfold log_line, Error_text. cbn [String.concat]. now rewrite !append_assoc.
Qed.

Lemma caller_location_after_slash rt dir base line :
  rt_Caller rt 2 = Some (dir +:+ "/" +:+ base, line) ->
  Str.Index base "/" = -1 ->
  caller_location rt = (base, line).
Proof.
  intros Hcaller Hbase. unfold caller_location. rewrite Hcaller.
  change ("/" +:+ base) with (String "/"%char base).
  rewrite (LastIndex_append_char "/" dir base Hbase), slice_from_after_char.
  pose proof (len_nonneg dir).
  destruct (Z.leb_spec 0 (Str.len dir)); [reflexivity | lia].
Qed.

Lemma caller_location_after_backslash rt dir base line :
  rt_Caller rt 2 = Some (dir +:+ "\" +:+ base, line) ->
  Str.Index (dir +:+ "\" +:+ base) "/" = -1 ->
  Str.Index base "\" = -1 ->
  caller_location rt = (base, line).
Proof.
  intros Hcaller Hno Hbase. unfold caller_location. rewrite Hcaller.
  apply LastIndex_absent_iff in Hno. rewrite Hno.
  change (0 <=? -1) with false. cbv iota.
  change ("\" +:+ base) with (String "\"%char base).
  rewrite (LastIndex_append_char "\" dir base Hbase), slice_from_after_char.
  pose proof (len_nonneg dir).
  destruct (Z.leb_spec 0 (Str.len dir)); [reflexivity | lia].
Qed.

Lemma caller_location_whole rt file line :
  rt_Caller rt 2 = Some (file, line) ->
  Str.Index file "/" = -1 ->
  Str.Index file "\" = -1 ->
  caller_location rt = (file, line).
Proof.
  intros Hcaller Hslash Hback. unfold caller_location. rewrite Hcaller.
  apply LastIndex_absent_iff in Hslash. apply LastIndex_absent_iff in Hback.
  now rewrite Hslash, Hback.
Qed.

(** Every file name is of one of the three shapes [logError] tells
    apart. *)
Lemma file_shapes (file : string) :
  (exists dir base : string, file = dir +:+ "/" +:+ base /\ Str.Index base "/" = -1) \/
  (Str.Index file "/" = -1 /\
   exists dir base : string, file = dir +:+ "\" +:+ base /\ Str.Index base "\" = -1) \/
  (Str.Index file "/" = -1 /\ Str.Index file "\" = -1).
Proof.
  pose proof (LastIndex_lower_bound file "/") as Hs.
  pose proof (LastIndex_lower_bound file "\") as Hb.
  destruct (Z.leb_spec 0 (Str.LastIndex file "/")) as [H|H].
  - left. destruct (LastIndex_found "/" file H) as (dir & base & -> & _ & Hbase).
    now exists dir, base.
  - right. assert (Hno : Str.Index file "/" = -1) by (apply LastIndex_absent_iff; lia).
    destruct (Z.leb_spec 0 (Str.LastIndex file "\")) as [H'|H'].
    + left. split; [exact Hno|].
      destruct (LastIndex_found "\" file H') as (dir & base & -> & _ & Hbase).
      now exists dir, base.
    + right. split; [exact Hno|]. apply LastIndex_absent_iff. lia.
Qed.

(** X1. The line a plain constructor writes starts with the resolved
    file cut after its last slash; with no slash, cut after its last
    backslash; with neither, whole; then the resolved line number and
    the error text. Every file name falls under one of the three
    cases. *)
Theorem logged_file_is_cut_after_last_separator
    (rt : Runtime) (file : string) (line : Z) (m : string) (σ : state) :
  rt_Caller rt 2 = Some (file, line) ->
  exists (l : loc) (σ' : state) (logged : string),
    New rt m σ = Some (Some l, σ') /\
    errorWriter σ' =
      Writer_Write (errorWriter σ)
        (logged +:+ " " +:+ Str.Itoa line +:+ " " +:+ "Status 0 : " +:+ m +:+ " " +:+
         rt_Now rt +:+ Str.LF) /\
    (forall dir base : string,
        file = dir +:+ "/" +:+ base -> Str.Index base "/" = -1 -> logged = base) /\
    (forall dir base : string,
        Str.Index file "/" = -1 ->
        file = dir +:+ "\" +:+ base -> Str.Index base "\" = -1 -> logged = base) /\
    (Str.Index file "/" = -1 -> Str.Index file "\" = -1 -> logged = file) /\
    ((exists dir base : string, file = dir +:+ "/" +:+ base /\ Str.Index base "/" = -1) \/
     (Str.Index file "/" = -1 /\
      exists dir base : string, file = dir +:+ "\" +:+ base /\ Str.Index base "\" = -1) \/
     (Str.Index file "/" = -1 /\ Str.Index file "\" = -1)).
Proof.
  intros Hcaller.
  destruct (caller_location_resolved rt file line Hcaller) as [Hline _].
  eexists _, _, (caller_location rt).1.
  run_plain_constructor. split; [reflexivity|].
  cbn [constructed errorWriter]. rewrite log_line_flat, Hline. cbn [code message].
  split; [reflexivity|]. split; [|split; [|split]].
  - intros dir base -> Hbase.
    now rewrite (caller_location_after_slash rt dir base line Hcaller Hbase).
  - intros dir base Hno -> Hbase.
    now rewrite (caller_location_after_backslash rt dir base line Hcaller Hno Hbase).
  - intros Hslash Hback.
    now rewrite (caller_location_whole rt file line Hcaller Hslash Hback).
  - apply file_shapes.
Qed.

Lemma logged_file_is_cut_after_last_separator_witness :
  (rt_Caller slash_rt 2 = Some ("/go/src/app" +:+ "/" +:+ "main.go", 12) /\
   Str.Index "main.go" "/" = -1) /\
  exists (l : loc) (σ' : state),
    New slash_rt "disk full" (mkState (Buffer "") ∅ ∅) = Some (Some l, σ') /\
    errorWriter σ' =
      Writer_Write (Buffer "")
        ("main.go" +:+ " " +:+ Str.Itoa 12 +:+ " " +:+ "Status 0 : " +:+ "disk full" +:+ " " +:+
         rt_Now slash_rt +:+ Str.LF).
Proof.
  split; [split; reflexivity|].
  destruct (logged_file_is_cut_after_last_separator slash_rt
              ("/go/src/app" +:+ "/" +:+ "main.go") 12 "disk full"
              (mkState (Buffer "") ∅ ∅) eq_refl)
    as (l & σ' & logged & Hnew & Hw & Hslash & _).
  rewrite (Hslash "/go/src/app" "main.go" eq_refl eq_refl) in Hw.
  exists l, σ'. split; [exact Hnew | exact Hw].
Defined.

(** X2. A resolved file with no slash but with backslashes is logged as
    the part after its last backslash. *)
Theorem logged_file_after_last_backslash
    (rt : Runtime) (dir base : string) (line : Z) :
  rt_Caller rt 2 = Some (dir +:+ "\" +:+ base, line) ->
  Str.Index dir "/" = -1 ->
  Str.Index base "/" = -1 ->
  Str.Index base "\" = -1 ->
  forall (c : Z) (text : string) (σ : state),
  exists (l : loc) (σ' : state),
    WithStatus rt c (an_error text) σ = Some (Some l, σ') /\
    errorWriter σ' =
      Writer_Write (errorWriter σ)
        (base +:+ " " +:+ Str.Itoa line +:+ " " +:+ "Status " +:+ Str.Itoa c +:+ " : " +:+
         text +:+ " " +:+ rt_Now rt +:+ Str.LF).
Proof.
  intros Hcaller Hdir Hbase Hbase' c text σ.
  assert (Hloc : caller_location rt = (base, line)).
  { unfold caller_location. rewrite Hcaller.
    assert (Hno : Str.LastIndex (dir +:+ "\" +:+ base) "/" = -1).
    { apply LastIndex_absent_iff, Index_absent_append; [exact Hdir|].
      change ("\" +:+ base) with (String "\"%char base).
      now apply Index_absent_cons. }
    rewrite Hno. change (0 <=? -1) with false. cbv iota.
    change ("\" +:+ base) with (String "\"%char base).
    rewrite (LastIndex_append_char "\" dir base Hbase'), slice_from_after_char.
    destruct (Z.leb_spec 0 (Str.len dir)); [reflexivity|].
    pose proof (len_nonneg dir). lia. }
  eexists _, _. run_plain_constructor. split; [reflexivity|].
  cbn [constructed errorWriter]. rewrite log_line_flat, Hloc. reflexivity.
Qed.

Lemma logged_file_after_last_backslash_witness :
  (rt_Caller backslash_rt 2 = Some ("C:\src\app" +:+ "\" +:+ "main.go", 7) /\
   Str.Index "C:\src\app" "/" = -1 /\
   Str.Index "main.go" "/" = -1 /\
   Str.Index "main.go" "\" = -1) /\
  exists (l : loc) (σ' : state),
    WithStatus backslash_rt 404 (an_error "missing") (mkState (Buffer "") ∅ ∅)
    = Some (Some l, σ') /\
    errorWriter σ' =
      Writer_Write (Buffer "")
        ("main.go" +:+ " " +:+ Str.Itoa 7 +:+ " " +:+ "Status " +:+ Str.Itoa 404 +:+ " : " +:+
         "missing" +:+ " " +:+ rt_Now backslash_rt +:+ Str.LF).
Proof.
  split; [repeat split|].
  apply (logged_file_after_last_backslash backslash_rt "C:\src\app" "main.go" 7);
    reflexivity.
Defined.

(* ===================================================================== *)
(** ** What the constructors and mutators leave alone *)
(* ===================================================================== *)

(** X3. [WithStack] writes nothing to the diagnostic sink and touches no
    StatusError, whatever the cause; a StackError that existed before is
    unchanged and is not the one returned. It returns unless the cause
    is non-nil and its [Error] method panics. A plain constructor called
    with a keeping sink makes the sink longer. *)
Theorem WithStack_does_not_log
    (rt : Runtime) (m : string) (c : Z) (cause : error) (σ : state) :
  match WithStack rt m c cause σ with
  | Some (r, σ') =>
      errorWriter σ' = errorWriter σ /\
      heap_Error σ' = heap_Error σ /\
      (forall (l' : loc) (s' : StackError),
          heap_StackError σ !! l' = Some s' ->
          heap_StackError σ' !! l' = Some s' /\ r <> Some l')
  | None => is_nil cause = false /\ error_Error rt cause σ = None
  end /\
  (forall (text written : string),
      errorWriter σ = Buffer written ->
      exists (r : ptr) (σ' : state) (line : string),
        WithMessage rt m c (an_error text) σ = Some (r, σ') /\
        errorWriter σ' = Buffer (written +:+ line) /\
        (String.length written < String.length (written +:+ line))%nat).
Proof.
  split.
  - destruct (error_Error rt cause σ) as [[text σ1]|] eqn:E.
    + pose proof (error_Error_state _ _ _ _ _ E) as ->.
      rewrite (WithStack_run _ m c _ _ _ E).
      cbn [errorWriter heap_Error heap_StackError].
      split; [reflexivity|]. split; [reflexivity|].
      intros l' s' H.
      assert (Hne : fresh (dom (heap_StackError σ)) <> l').
      { intros <-. rewrite fresh_loc_free in H. discriminate. }
      split; [now rewrite lookup_insert_ne | congruence].
    + destruct (is_nil cause) eqn:Hnil.
      * destruct cause; try discriminate. cbn. repeat split; auto; discriminate.
      * destruct (annotate_panics rt m c cause σ Hnil E) as (_ & _ & ->). auto.
  - intros text written Hw. eexists _, _, _. run_plain_constructor.
    split; [reflexivity|]. cbn [constructed errorWriter]. rewrite Hw.
    split; [reflexivity|]. rewrite length_append, log_line_flat, !length_append.
    change (String.length Str.LF) with 1%nat. lia.
Qed.

Lemma WithStack_does_not_log_witness :
  heap_StackError demo_state !! 1%positive =
    Some {| err := {| code := 500; message := "fetch user: db down" |};
            stack_ptr := Some [101; 201; 301] |} /\
  errorWriter (mkState (Buffer "") ∅ ∅) = Buffer "" /\
  (exists (r : ptr) (σ' : state),
      WithStack demo_rt "ctx" 7 (an_error "x") demo_state = Some (r, σ') /\
      errorWriter σ' = Discard /\
      heap_StackError σ' !! 1%positive =
        Some {| err := {| code := 500; message := "fetch user: db down" |};
                stack_ptr := Some [101; 201; 301] |} /\
      r <> Some 1%positive) /\
  (exists (r : ptr) (σ' : state) (line : string),
      WithMessage demo_rt "ctx" 7 (an_error "x") (mkState (Buffer "") ∅ ∅) = Some (r, σ') /\
      errorWriter σ' = Buffer ("" +:+ line)).
Proof.
  split; [reflexivity|]. split; [reflexivity|]. split.
  - pose proof (proj1 (WithStack_does_not_log demo_rt "ctx" 7 (an_error "x") demo_state))
      as H.
    destruct H as (Hw & _ & Hframe).
    destruct (Hframe 1%positive _ eq_refl) as [Hkept Hne].
    eexists _, _. split; [apply WithStack_run; reflexivity|]. split; [exact Hw|].
    split; [exact Hkept | exact Hne].
  - destruct (proj2 (WithStack_does_not_log demo_rt "ctx" 7 (an_error "x")
                       (mkState (Buffer "") ∅ ∅)) "x" "" eq_refl)
      as (r & σ' & line & Hrun & Hw & _).
    exists r, σ', line. auto.
Defined.

Lemma constructed_frame rt v σ l' v' :
  heap_Error σ !! l' = Some v' ->
  heap_Error (constructed rt v σ) !! l' = Some v' /\
  fresh (dom (heap_Error σ)) <> l'.
Proof.
  intros H.
  assert (Hne : fresh (dom (heap_Error σ)) <> l').
  { intros <-. rewrite fresh_loc_free in H. discriminate. }
  split; [|exact Hne]. cbn [constructed heap_Error]. now rewrite lookup_insert_ne.
Qed.



(** X5. Status mutations on a StatusError compose: the last status set
    wins, setting the status the error already has changes nothing, and
    every other StatusError is left as it was. *)
Theorem Error_WithStatus_composes (l : loc) (σ : state) (v : Error) (a b : Z) :
  heap_Error σ !! l = Some v ->
  (e <- Error_WithStatus (Some l) a ;; Error_WithStatus e b) σ
    = Error_WithStatus (Some l) b σ /\
  Error_WithStatus (Some l) (code v) σ = Some (Some l, σ) /\
  (forall (σ' : state) (l' : loc),
      Error_WithStatus (Some l) a σ = Some (Some l, σ') ->
      l' <> l ->
      heap_Error σ' !! l' = heap_Error σ !! l').
Proof.
  intros H. split; [|split].
  - unfold bind at 1. rewrite (Error_WithStatus_run _ _ _ a H).
    erewrite Error_WithStatus_run by (cbn [heap_Error]; apply lookup_insert_eq).
    rewrite (Error_WithStatus_run _ _ _ b H).
    cbn [heap_Error heap_StackError errorWriter message]. now rewrite insert_insert_eq.
  - rewrite (Error_WithStatus_run _ _ _ (code v) H).
    replace {| code := code v; message := message v |} with v by now destruct v.
    rewrite (insert_id _ _ _ H). now rewrite state_eta.
  - intros σ' l' Hrun Hne. rewrite (Error_WithStatus_run _ _ _ a H) in Hrun.
    injection Hrun as <-. cbn [heap_Error]. now rewrite lookup_insert_ne.
Qed.

Lemma Error_WithStatus_composes_witness :
  heap_Error demo_state !! 1%positive = Some {| code := 0; message := "disk full" |} /\
  (e <- Error_WithStatus (Some 1%positive) 404 ;; Error_WithStatus e 500) demo_state
    = Error_WithStatus (Some 1%positive) 500 demo_state /\
  Error_WithStatus (Some 1%positive) 0 demo_state = Some (Some 1%positive, demo_state).
Proof.
  split; [reflexivity|].
  destruct (Error_WithStatus_composes 1%positive demo_state
              {| code := 0; message := "disk full" |} 404 500 eq_refl)
    as (Hchain & Hsame & _).
  exact (conj Hchain Hsame).
Defined.

(** X6. The fluent chain "construct, then override the status" returns
    the constructed object with the new status, but the diagnostic line
    was written before the override and shows status 0. *)
Theorem New_then_WithStatus_logs_status_zero
    (rt : Runtime) (m : string) (status : Z) (σ : state) :
  exists (l : loc) (σ' : state) (location : string),
    (e <- New rt m ;; Error_WithStatus e status) σ = Some (Some l, σ') /\
    heap_Error σ !! l = None /\
    heap_Error σ' !! l = Some {| code := status; message := m |} /\
    Error_Error (Some l) σ' = Some ("Status " +:+ Str.Itoa status +:+ " : " +:+ m, σ') /\
    errorWriter σ' =
      Writer_Write (errorWriter σ)
        (location +:+ " " +:+ "Status 0 : " +:+ m +:+ " " +:+ rt_Now rt +:+ Str.LF).
Proof.
  eexists _, _, ((caller_location rt).1 +:+ " " +:+ Str.Itoa (caller_location rt).2).
  unfold bind at 1. unfold New. rewrite construct_run.
  erewrite Error_WithStatus_run by apply constructed_lookup.
  split; [reflexivity|]. split; [apply fresh_loc_free|].
  cbn [heap_Error errorWriter constructed message].
  split; [apply lookup_insert_eq|]. split.
  - erewrite Error_Error_run by (cbn [heap_Error]; apply lookup_insert_eq). reflexivity.
  - rewrite log_line_flat. cbn [code message]. now rewrite !append_assoc.
Qed.

(** X7. The nil result of an annotate constructor cannot be used: every
    method of [*Error] and [*StackError] panics on it. *)
Theorem methods_panic_on_nil_result
    (rt : Runtime) (quote : string -> string) (m : string) (c status : Z) (σ : state) :
  (e <- WithStatus rt c nil_error ;; Error_WithStatus e status) σ = None /\
  (e <- WithStatus rt c nil_error ;; Error_Error e) σ = None /\
  (e <- WithMessage rt m c nil_error ;; Error_Code e) σ = None /\
  (e <- WithMessage rt m c nil_error ;; Error_MarshalJSON quote e) σ = None /\
  (s <- WithStack rt m c nil_error ;; StackError_Error rt s) σ = None /\
  (s <- WithStack rt m c nil_error ;; StackError_Code s) σ = None /\
  (s <- WithStack rt m c nil_error ;; StackError_WithStatus s status) σ = None.
Proof. repeat split. Qed.

(* ===================================================================== *)
(** ** More on the captured stack *)
(* ===================================================================== *)

(** X8. The captured stack keeps the order of the call stack and starts
    at the caller of the constructor: entry [i] of the capture is entry
    [3 + i] of the goroutine's stack for [i < 32], and there is no entry
    from 32 on. *)
Theorem callers_entries (rt : Runtime) (i : nat) :
  callers rt !! i =
    if decide (i < 32)%nat then rt_stack rt !! (3 + i)%nat else None.
Proof.
  rewrite callers_eq. change depth with 32%nat. unfold stack, uintptr.
  rewrite lookup_take. destruct (decide (i < 32)%nat); [|reflexivity].
  apply lookup_drop.
Qed.

Lemma stack_StackTrace_id (s : stack) : stack_StackTrace s = s.
Proof. unfold stack_StackTrace. apply List.map_id. Qed.

(** X9. [StackTrace] converts a stack frame by frame, keeping length and
    order, and the verbose rendering of the converted trace is the
    verbose rendering of the stack itself, with or without the [#]
    flag. *)
Theorem StackTrace_renders_like_stack (rt : Runtime) (s : stack) (sharp : bool) :
  length (stack_StackTrace s) = length s /\
  (forall i : nat, stack_StackTrace s !! i = s !! i) /\
  stackTrace_Format rt (Some (stack_StackTrace s)) true sharp "v"
    = stack_Format rt s true "v".
Proof.
  rewrite stack_StackTrace_id. repeat split.
Qed.

Lemma StackError_WithStatus_preserves_rendering_aux rt l σ s status :
  heap_StackError σ !! l = Some s ->
  exists σ' : state,
    StackError_WithStatus (Some l) status σ = Some (tt, σ') /\
    StackError_Error rt (Some l) σ' =
      Some ("Status " +:+ Str.Itoa status +:+ " : " +:+ message (err s) +:+
            fmt_plus_v_stack rt (stack_ptr s), σ').
Proof.
  intros H. eexists. rewrite (StackError_WithStatus_run _ _ _ status H).
  split; [reflexivity|].
  erewrite StackError_Error_run by (cbn [heap_StackError]; apply lookup_insert_eq).
  unfold Error_text. cbn [err code message stack_ptr]. now rewrite !append_assoc.
Qed.

(** X10. Setting the status of a StackError changes the number in its
    rendered text and nothing else: the message and the captured stack
    are rendered as before, other StackErrors are untouched, and a
    second mutation overrides the first. *)
Theorem StackError_WithStatus_keeps_message_and_stack
    (rt : Runtime) (l : loc) (σ : state) (s : StackError) (a b : Z) :
  heap_StackError σ !! l = Some s ->
  (exists σ' : state,
      StackError_WithStatus (Some l) a σ = Some (tt, σ') /\
      StackError_Error rt (Some l) σ' =
        Some ("Status " +:+ Str.Itoa a +:+ " : " +:+ message (err s) +:+
              fmt_plus_v_stack rt (stack_ptr s), σ') /\
      (forall l' : loc, l' <> l -> heap_StackError σ' !! l' = heap_StackError σ !! l') /\
      heap_Error σ' = heap_Error σ) /\
  (StackError_WithStatus (Some l) a ;;; StackError_WithStatus (Some l) b) σ
    = StackError_WithStatus (Some l) b σ.
Proof.
  intros H. split.
  - destruct (StackError_WithStatus_preserves_rendering_aux rt l σ s a H)
      as (σ' & Hrun & Htext).
    exists σ'. split; [exact Hrun|]. split; [exact Htext|].
    rewrite (StackError_WithStatus_run _ _ _ a H) in Hrun. injection Hrun as <-.
    cbn [heap_StackError heap_Error]. split; [|reflexivity].
    intros l' Hne. now rewrite lookup_insert_ne.
  - unfold bind. rewrite (StackError_WithStatus_run _ _ _ a H).
    erewrite StackError_WithStatus_run by (cbn [heap_StackError]; apply lookup_insert_eq).
    rewrite (StackError_WithStatus_run _ _ _ b H).
    cbn [heap_Error heap_StackError errorWriter err message stack_ptr].
    now rewrite insert_insert_eq.
Qed.

Lemma StackError_WithStatus_keeps_message_and_stack_witness :
  heap_StackError demo_state !! 1%positive =
    Some {| err := {| code := 500; message := "fetch user: db down" |};
            stack_ptr := Some [101; 201; 301] |} /\
  (StackError_WithStatus (Some 1%positive) 404 ;;; StackError_WithStatus (Some 1%positive) 503)
    demo_state
  = StackError_WithStatus (Some 1%positive) 503 demo_state.
Proof.
  split; [reflexivity|].
  apply (proj2 (StackError_WithStatus_keeps_message_and_stack demo_rt 1%positive demo_state
                  {| err := {| code := 500; message := "fetch user: db down" |};
                     stack_ptr := Some [101; 201; 301] |} 404 503 eq_refl)).
Defined.

(* ===================================================================== *)
(** ** The short form of a frame *)
(* ===================================================================== *)

Lemma Base_nonempty_slash_free (path : string) :
  Str.Base path <> "" /\ (Str.Base path = "/" \/ Str.Index (Str.Base path) "/" = -1).
Proof.
  unfold Str.Base. destruct (String.eqb_spec path "") as [->|Hne].
  - split; [discriminate | now right].
  - set (p := Str.strip_trailing_slashes path).
    set (q := if 0 <=? Str.LastIndex p "/"
              then Str.slice_from p (Str.LastIndex p "/" + 1) else p).
    destruct (String.eqb_spec q "") as [_|Hq].
    + split; [discriminate | now left].
    + split; [exact Hq | right]. unfold q.
      destruct (Z.leb_spec 0 (Str.LastIndex p "/")) as [H|H].
      * apply no_separator_after_LastIndex.
      * apply LastIndex_absent_iff. pose proof (LastIndex_lower_bound p "/"). lia.
Qed.

Lemma strip_trailing_slashes_cons (c : ascii) (s : string) :
  Str.strip_trailing_slashes (String c s) =
    match Str.strip_trailing_slashes s with
    | EmptyString => if Ascii.eqb c "/" then EmptyString else String c EmptyString
    | r => String c r
    end.
Proof. reflexivity. Qed.

Lemma strip_trailing_slashes_base (b : string) :
  b <> "" -> Str.Index b "/" = -1 -> Str.strip_trailing_slashes b = b.
Proof.
  induction b as [|x b IH]; intros Hne Habs; [congruence|].
  apply Index_absent_tail in Habs as [Hx Hb].
  rewrite strip_trailing_slashes_cons.
  destruct b as [|y b].
  - cbn [Str.strip_trailing_slashes].
    destruct (Ascii.eqb_spec x "/") as [->|]; [|reflexivity].
    now rewrite Ascii.eqb_refl in Hx.
  - now rewrite IH.
Qed.

Lemma strip_trailing_slashes_append (a b : string) :
  b <> "" -> Str.Index b "/" = -1 -> Str.strip_trailing_slashes (a +:+ b) = a +:+ b.
Proof.
  intros Hne Habs. induction a as [|x a IH].
  - now apply strip_trailing_slashes_base.
  - rewrite append_cons, strip_trailing_slashes_cons, IH.
    destruct (a +:+ b) eqn:E; [|reflexivity].
    destruct a; [now rewrite append_nil in E | discriminate].
Qed.

Lemma Base_of_dir_and_base (dir base : string) :
  base <> "" -> Str.Index base "/" = -1 -> Str.Base (dir +:+ "/" +:+ base) = base.
Proof.
  intros Hne Habs. unfold Str.Base.
  destruct (String.eqb_spec (dir +:+ "/" +:+ base) "") as [E|_].
  { destruct dir; discriminate. }
  change ("/" +:+ base) with (String "/"%char base).
  replace (dir +:+ String "/"%char base) with ((dir +:+ "/") +:+ base)
    by now rewrite append_assoc.
  rewrite (strip_trailing_slashes_append _ _ Hne Habs), append_assoc.
  change ("/" +:+ base) with (String "/"%char base).
  rewrite (LastIndex_append_char "/" dir base Habs), slice_from_after_char.
  pose proof (len_nonneg dir).
  destruct (Z.leb_spec 0 (Str.len dir)); [|lia].
  now destruct (String.eqb_spec base "").
Qed.

(** X11. The short form of a frame ([%s] without [+]) is never empty and
    never has a directory part: it is "/" or contains no slash. *)
Theorem frame_short_form_has_no_directory (rt : Runtime) (f : frame) :
  frame_Format rt f false "s" <> "" /\
  (frame_Format rt f false "s" = "/" \/
   Str.Index (frame_Format rt f false "s") "/" = -1).
Proof. apply Base_nonempty_slash_free. Qed.

(** X12. For a frame that resolves to the file [dir/base], the short
    form is [base] and [%v] prints [base:line], while [%+v] prints the
    function name, a newline, a tab and the whole path with the line. *)
Theorem frame_formats_of_resolved_frame
    (rt : Runtime) (f : frame) (fn : Func) (dir base : string) (line : Z) :
  rt_FuncForPC rt (frame_pc rt f) = Some fn ->
  Func_FileLine fn (frame_pc rt f) = (dir +:+ "/" +:+ base, line) ->
  base <> "" ->
  Str.Index base "/" = -1 ->
  frame_Format rt f false "s" = base /\
  frame_Format rt f false "v" = base +:+ ":" +:+ Str.Itoa line /\
  frame_Format rt f true "v" =
    Func_Name fn +:+ Str.LF +:+ Str.TAB +:+ dir +:+ "/" +:+ base +:+ ":" +:+ Str.Itoa line.
Proof.
  intros Hfn Hfl Hne Habs.
  unfold frame_Format, frame_Format_s, frame_Format_d, frame_file, frame_line.
  cbn [Ascii.eqb Bool.eqb]. rewrite Hfn, Hfl. cbn [fst snd].
  rewrite (Base_of_dir_and_base dir base Hne Habs).
  repeat split. now rewrite !append_assoc.
Qed.

Lemma frame_formats_of_resolved_frame_witness :
  (rt_FuncForPC demo_rt (frame_pc demo_rt 201) = Some (mkFunc "main.main" (fun _ => ("/app/main.go", 12))) /\
   Func_FileLine (mkFunc "main.main" (fun _ => ("/app/main.go", 12))) (frame_pc demo_rt 201)
     = ("/app" +:+ "/" +:+ "main.go", 12) /\
   "main.go" <> "" /\
   Str.Index "main.go" "/" = -1) /\
  frame_Format demo_rt 201 false "s" = "main.go" /\
  frame_Format demo_rt 201 false "v" = "main.go" +:+ ":" +:+ Str.Itoa 12 /\
  frame_Format demo_rt 201 true "v" =
    "main.main" +:+ Str.LF +:+ Str.TAB +:+ "/app" +:+ "/" +:+ "main.go" +:+ ":" +:+ Str.Itoa 12.
Proof.
  split; [repeat split; discriminate|].
  apply (frame_formats_of_resolved_frame demo_rt 201
           (mkFunc "main.main" (fun _ => ("/app/main.go", 12))) "/app" "main.go" 12);
    try reflexivity; discriminate.
Defined.

(* ===================================================================== *)
(** ** [funcname] on every name *)
(* ===================================================================== *)

(** X13. Whatever the name, [funcname] returns a suffix of it that
    contains no slash; a last path element without a dot is returned
    whole. *)
Theorem funcname_is_slash_free_suffix (name : string) :
  (exists pre : string, name = pre +:+ funcname name) /\
  Str.Index (funcname name) "/" = -1 /\
  (Str.Index (Str.slice_from name (Str.LastIndex name "/" + 1)) "." = -1 ->
   funcname name = Str.slice_from name (Str.LastIndex name "/" + 1)).
Proof.
  unfold funcname.
  set (name' := Str.slice_from name (Str.LastIndex name "/" + 1)).
  split; [|split].
  - destruct (slice_from_suffix name (Str.LastIndex name "/" + 1)) as [p1 H1].
    destruct (slice_from_suffix name' (Str.Index name' "." + 1)) as [p2 H2].
    exists (p1 +:+ p2). fold name' in H1. rewrite append_assoc, <- H2. exact H1.
  - apply Index_absent_drop. apply no_separator_after_LastIndex.
  - intros ->. reflexivity.
Qed.

Lemma funcname_is_slash_free_suffix_witness :
  Str.Index (Str.slice_from "a/b/init" (Str.LastIndex "a/b/init" "/" + 1)) "." = -1 /\
  funcname "a/b/init" = Str.slice_from "a/b/init" (Str.LastIndex "a/b/init" "/" + 1).
Proof.
  split; [reflexivity|].
  apply (proj2 (proj2 (funcname_is_slash_free_suffix "a/b/init"))). reflexivity.
Defined.

(* ===================================================================== *)
(** ** [trimGOPATH] *)
(* ===================================================================== *)

Lemma trimGOPATH_loop_S (n : nat) (file : string) (i : Z) :
  trimGOPATH_loop (S n) file i =
    if Str.LastIndex (Str.slice_to file i) "/" =? -1 then -1
    else trimGOPATH_loop n file (Str.LastIndex (Str.slice_to file i) "/").
Proof. reflexivity. Qed.

(** The loop, started at the end of a prefix [p] of the file: it breaks
    when [p] has too few separators, and otherwise stops on the
    separator of [p] that has [n] separators after it. *)
Lemma trimGOPATH_loop_spec (n : nat) :
  forall p q : string,
    (Str.Count p "/" < Z.of_nat (S n) ->
     trimGOPATH_loop (S n) (p +:+ q) (Str.len p) = -1) /\
    (Z.of_nat (S n) <= Str.Count p "/" ->
     exists p' r : string,
       p = p' +:+ String "/"%char r /\
       Str.Count r "/" = Z.of_nat n /\
       trimGOPATH_loop (S n) (p +:+ q) (Str.len p) = Str.len p').
Proof.
  induction n as [|n IH]; intros p q; rewrite trimGOPATH_loop_S, slice_to_append;
    pose proof (LastIndex_lower_bound p "/") as Hlow;
    destruct (Z.eqb_spec (Str.LastIndex p "/") (-1)) as [Hnone|Hsome].
  - assert (Str.Count p "/" = 0) by now apply Count_absent, LastIndex_absent_iff.
    split; [reflexivity | lia].
  - destruct (LastIndex_found "/" p ltac:(lia)) as (a & b & -> & Hlen & Hb).
    apply Count_absent in Hb. pose proof (Count_nonneg a "/").
    rewrite Count_append, Count_separator.
    split; [lia|]. intros _. exists a, b. cbn [trimGOPATH_loop]. auto.
  - assert (Str.Count p "/" = 0) by now apply Count_absent, LastIndex_absent_iff.
    split; [reflexivity | lia].
  - destruct (LastIndex_found "/" p ltac:(lia)) as (a & b & -> & Hlen & Hb).
    apply Count_absent in Hb.
    rewrite Count_append, Count_separator, Hb, <- Hlen, append_assoc.
    destruct (IH a (String "/"%char b +:+ q)) as [IHlt IHge].
    split.
    + intros Hc. apply IHlt. lia.
    + intros Hc. destruct IHge as (p' & r & -> & Hr & Hloop); [lia|].
      exists p', (r +:+ String "/"%char b). rewrite append_assoc, append_cons.
      split; [reflexivity|]. rewrite Count_append, Count_separator, Hb, Hr.
      split; [lia | exact Hloop].
Qed.

(** X14. [trimGOPATH] leaves a file path with fewer separators than the
    goal unchanged; otherwise it returns the part of the path after one
    of its separators, and that part has exactly one separator more than
    the function name. *)
Theorem trimGOPATH_keeps_one_more_separator (name file : string) :
  (Str.Count file "/" < Str.Count name "/" + 2 -> trimGOPATH name file = file) /\
  (Str.Count name "/" + 2 <= Str.Count file "/" ->
   (exists dir : string, file = dir +:+ "/" +:+ trimGOPATH name file) /\
   Str.Count (trimGOPATH name file) "/" = Str.Count name "/" + 1).
Proof.
  unfold trimGOPATH. pose proof (Count_nonneg name "/") as Hname.
  replace (Z.to_nat (Str.Count name "/" + 2))
    with (S (Z.to_nat (Str.Count name "/" + 1))) by lia.
  destruct (trimGOPATH_loop_spec (Z.to_nat (Str.Count name "/" + 1)) file "")
    as [Hlt Hge].
  rewrite append_empty_r in Hlt, Hge.
  split.
  - intros H. rewrite Hlt by lia. reflexivity.
  - intros H. destruct Hge as (p' & r & Hfile & Hr & Hloop); [lia|].
    rewrite Hloop. change (Str.len "/") with 1. subst file.
    rewrite !slice_from_after_char.
    split; [now exists p' | lia].
Qed.

Lemma trimGOPATH_keeps_one_more_separator_witness :
  (Str.Count "pkg/file.go" "/" < Str.Count "pkg/sub.Type.Method" "/" + 2 /\
   trimGOPATH "pkg/sub.Type.Method" "pkg/file.go" = "pkg/file.go") /\
  (Str.Count "pkg/sub.Type.Method" "/" + 2 <= Str.Count "/home/user/src/pkg/sub/file.go" "/" /\
   (exists dir : string,
       "/home/user/src/pkg/sub/file.go" =
         dir +:+ "/" +:+ trimGOPATH "pkg/sub.Type.Method" "/home/user/src/pkg/sub/file.go") /\
   Str.Count (trimGOPATH "pkg/sub.Type.Method" "/home/user/src/pkg/sub/file.go") "/"
     = Str.Count "pkg/sub.Type.Method" "/" + 1).
Proof.
  split; (split; [vm_compute; intuition discriminate|]).
  - apply (proj1 (trimGOPATH_keeps_one_more_separator "pkg/sub.Type.Method" "pkg/file.go")).
    reflexivity.
  - apply (proj2 (trimGOPATH_keeps_one_more_separator "pkg/sub.Type.Method"
                    "/home/user/src/pkg/sub/file.go")).
    vm_compute. discriminate.
Defined.

Example trimGOPATH_documented_example :
  trimGOPATH "pkg/sub.Type.Method" "/home/user/src/pkg/sub/file.go" = "pkg/sub/file.go".
Proof. reflexivity. Qed.

(* ===================================================================== *)
(** ** The rendered text determines the error *)
(* ===================================================================== *)

Lemma string_of_uint_no_space (d : Decimal.uint) :
  Str.Index (NilEmpty.string_of_uint d) " " = -1.
Proof.
  induction d; cbn [NilEmpty.string_of_uint]; [reflexivity|..];
    now apply Index_absent_cons.
Qed.

Lemma Itoa_no_space (z : Z) : Str.Index (Str.Itoa z) " " = -1.
Proof.
  unfold Str.Itoa.
  assert (H : forall d, Str.Index (NilZero.string_of_uint d) " " = -1).
  { intros d. pose proof (string_of_uint_no_space d). now destruct d. }
  destruct (Z.to_int z) as [d|d]; cbn [NilZero.string_of_int]; [apply H|].
  now apply Index_absent_cons.
Qed.

Lemma Itoa_inj (a b : Z) : Str.Itoa a = Str.Itoa b -> a = b.
Proof.
  intros H. pose proof (Atoi_Itoa a) as Ha. rewrite H, Atoi_Itoa in Ha. congruence.
Qed.

(** Two texts cut at their first occurrence of a byte agree part by part. *)
Lemma split_at_first (c : ascii) (s t x y : string) :
  Str.Index s (String c EmptyString) = -1 ->
  Str.Index t (String c EmptyString) = -1 ->
  s +:+ String c x = t +:+ String c y ->
  s = t /\ x = y.
Proof.
  revert t. induction s as [|a s IH]; intros [|b t] Hs Ht H.
  - rewrite !append_nil in H. now injection H.
  - rewrite append_nil, append_cons in H. injection H as <- _.
    apply Index_absent_tail in Ht as [Hb _]. now rewrite Ascii.eqb_refl in Hb.
  - rewrite append_nil, append_cons in H. injection H as -> _.
    apply Index_absent_tail in Hs as [Ha _]. now rewrite Ascii.eqb_refl in Ha.
  - rewrite !append_cons in H. injection H as -> H.
    apply Index_absent_tail in Hs as [_ Hs]. apply Index_absent_tail in Ht as [_ Ht].
    destruct (IH t Hs Ht H) as [-> ->]. auto.
Qed.

(** X15. The rendered text of a StatusError determines it: two
    StatusErrors with the same text have the same code and the same
    message. *)
Theorem Error_text_determines_code_and_message (v w : Error) :
  Error_text v = Error_text w -> v = w.
Proof.
  unfold Error_text. intros H.
  apply (String.app_inj "Status ") in H.
  change (" : " +:+ message v) with (String " "%char (": " +:+ message v)) in H.
  change (" : " +:+ message w) with (String " "%char (": " +:+ message w)) in H.
  apply split_at_first in H as [Hc Hm]; try apply Itoa_no_space.
  apply Itoa_inj in Hc. apply (String.app_inj ": ") in Hm.
  destruct v, w. cbn [code message] in *. congruence.
Qed.

Lemma Error_text_determines_code_and_message_witness :
  Error_text {| code := 404; message := "missing" |} = "Status 404 : missing" /\
  {| code := 404; message := "missing" |} = {| code := 404; message := "missing" |}.
Proof.
  split; [reflexivity|].
  apply (Error_text_determines_code_and_message
           {| code := 404; message := "missing" |} {| code := 404; message := "missing" |}).
  reflexivity.
Defined.

(* ===================================================================== *)
(** ** Replacing the sink *)
(* ===================================================================== *)

(** X16. After [SetLogger] the lines go to the new sink only: two
    constructions after it, each with its own call site and clock
    reading, return two different objects and leave the sink holding
    its earlier content followed by their two lines, in call order,
    whatever the sink was before. *)
Theorem SetLogger_then_constructions_append_in_order
    (rt1 rt2 : Runtime) (w m1 m2 : string) (σ : state) :
  exists (l1 l2 : loc) (σ' : state),
    (SetLogger (Buffer w) ;;; e1 <- New rt1 m1 ;; e2 <- New rt2 m2 ;; ret (e1, e2)) σ
      = Some ((Some l1, Some l2), σ') /\
    l1 <> l2 /\
    heap_Error σ' !! l1 = Some {| code := 0; message := m1 |} /\
    heap_Error σ' !! l2 = Some {| code := 0; message := m2 |} /\
    errorWriter σ' =
      Buffer (w +:+
              ((caller_location rt1).1 +:+ " " +:+ Str.Itoa (caller_location rt1).2 +:+ " " +:+
               "Status 0 : " +:+ m1 +:+ " " +:+ rt_Now rt1 +:+ Str.LF) +:+
              ((caller_location rt2).1 +:+ " " +:+ Str.Itoa (caller_location rt2).2 +:+ " " +:+
               "Status 0 : " +:+ m2 +:+ " " +:+ rt_Now rt2 +:+ Str.LF)).
Proof.
  set (σ0 := {| errorWriter := Buffer w; heap_Error := heap_Error σ;
                heap_StackError := heap_StackError σ |}).
  set (v1 := {| code := 0; message := m1 |}).
  set (v2 := {| code := 0; message := m2 |}).
  set (l1 := fresh (dom (heap_Error σ0))).
  set (σ1 := constructed rt1 v1 σ0).
  set (l2 := fresh (dom (heap_Error σ1))).
  exists l1, l2, (constructed rt2 v2 σ1).
  assert (Hl1 : heap_Error σ1 !! l1 = Some v1) by apply constructed_lookup.
  destruct (constructed_frame rt2 v2 σ1 l1 v1 Hl1) as [Hkept Hne].
  split; [|split; [intros E; apply Hne; symmetry; exact E | split; [exact Hkept | split]]].
  - unfold bind at 1. unfold SetLogger. fold σ0.
    unfold bind at 1. unfold New at 1. rewrite construct_run. fold l1 σ1.
    unfold bind at 1. unfold New. rewrite construct_run. reflexivity.
  - apply constructed_lookup.
  - cbn [constructed errorWriter σ1 σ0 Writer_Write].
    rewrite !log_line_flat. cbn [code message v1 v2].
    now rewrite !append_assoc.
Qed.

Example two_constructions_two_clock_readings :
  errorWriter <$> (snd <$>
    (SetLogger (Buffer "") ;;; New slash_rt "a" ;;; New backslash_rt "b") init_state)
  = Some (Buffer ("main.go 12 Status 0 : a 2020-01-02 03:04:05 +0000 UTC" +:+ Str.LF +:+
                  "main.go 7 Status 0 : b 2020-01-02 03:04:06 +0000 UTC" +:+ Str.LF)).
Proof. vm_compute. reflexivity. Qed.
